(** * Notionsync: a shallow embedding of [Notionsync.py]

    The script reads rows from a database backend, maps every row onto
    the property schema of a Notion database and creates or patches one
    remote page per row.  This file embeds the property formatter, the
    remote page client, the sync loop, the connector factory with its
    four connectors and [main], and proves the properties the
    specification states about them.

    Python dictionaries that the code only reads by key (database rows)
    are finite maps; dictionaries the code builds and sends as JSON keep
    their insertion order and are association lists with Python's
    [d[k] = v] and [d.update(other)] written out. *)

From Stdlib Require Import ZArith Lia.
From stdpp Require Import gmap strings list fin_maps pretty.

Open Scope string_scope.

#[local] Set Warnings "-clear-no-such-hyp".

(** ** Python values held by a row *)

(** The scalars a connector puts into a row: SQL NULL, booleans,
    integers, text, dates, and the document store's object identifier. *)
Inductive value :=
| PyNone
| PyBool (b : bool)
| PyInt (n : Z)
| PyStr (s : string)
| PyDate (year month day : nat)
| PyObjectId (hex : string).

(** A row: [Dict] read by key only. *)
Abbreviation Record := (gmap string value).

Definition is_None (v : value) : bool :=
  match v with PyNone => true | _ => false end.

(** [bool(v)]: what [if v:] and [not v] test. *)
Definition truthy (v : value) : bool :=
  match v with
  | PyNone => false
  | PyBool b => b
  | PyInt n => negb (n =? 0)%Z
  | PyStr s => negb (s =? "")
  | PyDate _ _ _ => true
  | PyObjectId _ => true
  end.

(** [s.zfill(width)] for a string of digits. *)
Definition zfill (width : nat) (s : string) : string :=
  String.concat "" (replicate (width - String.length s) "0") +:+ s.

(** [str(v)]; a date prints in ISO format. *)
Definition str (v : value) : string :=
  match v with
  | PyNone => "None"
  | PyBool true => "True"
  | PyBool false => "False"
  | PyInt n => pretty n
  | PyStr s => s
  | PyDate y m d =>
      zfill 4 (pretty y) +:+ "-" +:+ zfill 2 (pretty m) +:+ "-" +:+ zfill 2 (pretty d)
  | PyObjectId hex => hex
  end.

(** [data.get(key)]: [None] when the key is absent. *)
Definition get (data : Record) (key : string) : value :=
  default PyNone (data !! key).

(** ** JSON payloads *)

(** The nested dictionaries and lists handed to [requests] as [json=].
    Leaves are Python scalars; whether they serialise is decided when the
    request is sent. *)
#[warnings="-register-all"]
Inductive json :=
| JVal (v : value)
| JArr (items : list json)
| JObj (members : list (string * json)).

Abbreviation JStr s := (JVal (PyStr s)).

(** *** Insertion-ordered dictionaries *)

Section OrderedDict.
Context {A : Type}.

(** [d[k]], by first match. *)
Fixpoint getitem (d : list (string * A)) (k : string) : option A :=
  match d with
  | [] => None
  | (k', v') :: d' => if k' =? k then Some v' else getitem d' k
  end.

(** [d[k] = v]: overwrite in place, or append a new key. *)
Fixpoint setitem (d : list (string * A)) (k : string) (v : A) : list (string * A) :=
  match d with
  | [] => [(k, v)]
  | (k', v') :: d' =>
      if k' =? k then (k', v) :: d' else (k', v') :: setitem d' k v
  end.

(** [d.update(other)]. *)
Definition update (d other : list (string * A)) : list (string * A) :=
  fold_left (fun acc kv => setitem acc kv.1 kv.2) other d.

Definition keys (d : list (string * A)) : list string := map fst d.
End OrderedDict.

(** ** The property formatter *)

Definition property_mapping : list (string * (string * string)) :=
  [ ("Name", ("name", "title"));
    ("UID", ("uid", "rich_text"));
    ("Status", ("status", "select"));
    ("Reviewer Name", ("reviewer_name", "rich_text"));
    ("Review Date", ("review_date", "date"));
    ("Next Follow Up", ("next_follow_up", "date"));
    ("Date Added", ("date_added", "date"));
    ("Platform", ("platform", "select"));
    ("Socials", ("socials", "rich_text")) ].

(** One turn of the loop of [_format_properties]: [properties] is the
    dictionary built so far. *)
Definition format_entry (data : Record) (properties : list (string * json))
    (entry : string * (string * string)) : list (string * json) :=
  let '(notion_prop, (data_key, prop_type)) := entry in
  let value := get data data_key in
  if is_None value then properties
  else if prop_type =? "title" then
    setitem properties notion_prop
      (JObj [("title", JArr [JObj [("text", JObj [("content", JStr (str value))])]])])
  else if prop_type =? "rich_text" then
    setitem properties notion_prop
      (JObj [("rich_text", JArr [JObj [("text", JObj [("content", JStr (str value))])]])])
  else if prop_type =? "select" then
    setitem properties notion_prop
      (JObj [("select", JObj [("name", JStr (str value))])])
  else if (prop_type =? "date") && truthy value then
    setitem properties notion_prop
      (JObj [("date", JObj [("start", JStr (str value))])])
  else properties.

Definition _format_properties (data : Record) : list (string * json) :=
  fold_left (format_entry data) property_mapping [].

(** ** The properties of an update *)

Definition update_fields : list string :=
  ["status"; "platform"; "socials"; "reviewer_name"; "review_date"; "next_follow_up"].

(** The loop of [update_page] that fills [properties]. *)
Definition update_properties (data : Record) : list (string * json) :=
  fold_left
    (fun properties field =>
       match data !! field with
       | Some v => update properties (_format_properties {[ field := v ]})
       | None => properties
       end)
    update_fields [].

(** ** Responses and exceptions *)

(** The decoded JSON object of a response, as far as the client reads
    it: the [id]s of the page objects listed under ["results"], when the
    object has that key. *)
Record body := { results : option (list value) }.

(** A response of the remote API.  [http_error] is the message of the
    [HTTPError] that [raise_for_status()] raises, when the status is not a
    success; [decoded] is what [json()] gives: the decoded object, or the
    message of the decoding error it raises. *)
Record response := {
  http_error : option string;
  decoded : string + body
}.

(** The exceptions the script meets.  Everything but [SystemExit] derives
    from [Exception]; [RequestException] stands for the whole hierarchy of
    [requests.exceptions] and carries [e.response]; [DriverError] stands
    for whatever a database driver raises. *)
Inductive exception :=
| RequestException (msg : string) (resp : option response)
| ValueError (msg : string)
| TypeError (msg : string)
| ImportError (msg : string)
| DriverError (msg : string)
| SystemExit (code : Z).

Definition is_Exception (e : exception) : bool :=
  match e with SystemExit _ => false | _ => true end.

Definition is_RequestException (e : exception) : bool :=
  match e with RequestException _ _ => true | _ => false end.

Definition is_ImportError (e : exception) : bool :=
  match e with ImportError _ => true | _ => false end.

(** [str(e)]. *)
Definition exc_str (e : exception) : string :=
  match e with
  | RequestException msg _ => msg
  | ValueError msg => msg
  | TypeError msg => msg
  | ImportError msg => msg
  | DriverError msg => msg
  | SystemExit code => pretty code
  end.

(** ** The outside world *)

Inductive request :=
| POST (url : string) (headers : list (string * string)) (payload : json)
| PATCH (url : string) (headers : list (string * string)) (payload : json).

(** What a connector asks of its driver: connect, run the query, fetch
    all rows, close. *)
Inductive db_request :=
| SqlQuery (driver : string) (params : list (string * value)) (query : string)
| MongoFind (connection_string : string) (db_name collection : value) (filter : json).

(** The remote API and the database, as state machines over a state [W]
    of their own.  [send] answers a request with a response, or with the
    message of the transport error [requests] raises; [execute] answers
    with the rows, or with the message of the driver's error. *)
Class Outside (W : Type) := {
  send : request → W → (string + response) * W;
  execute : db_request → W → (string + list Record) * W
}.

(** ** Program state *)

Inductive level := INFO | WARNING | ERROR.

(** The pieces of a formatted log message: literal text (with the [str]
    of interpolated scalars spliced in) and the [repr] of a row or of a
    decoded response, kept as the object. *)
Inductive log_arg :=
| Text (s : string)
| ReprRecord (r : Record)
| ReprBody (b : body).

Record ErrorDetail := { record : Record; error : string }.

(** The summary dictionary of [sync_from_database]. *)
Record Summary := {
  created : nat;
  updated : nat;
  errors : nat;
  error_details : list ErrorDetail
}.

Record state (W : Type) := {
  environ : gmap string string;        (* os.environ *)
  modules : gset string;               (* the modules [import] finds *)
  world : W;
  calls : list request;                (* requests sent, oldest first *)
  log : list (level * list log_arg);   (* logger output, oldest first *)
  stdout : list string;                (* the argument of each print, oldest first *)
  summary : Summary                    (* the summary being filled *)
}.
Arguments environ {W} _.
Arguments modules {W} _.
Arguments world {W} _.
Arguments calls {W} _.
Arguments log {W} _.
Arguments stdout {W} _.
Arguments summary {W} _.

Inductive result (A : Type) :=
| Ok (a : A)
| Raise (e : exception).
Arguments Ok {A} a.
Arguments Raise {A} e.

(** A computation: runs from a state, returns or raises. *)
Definition M (W A : Type) : Type := state W → result A * state W.

Section Effects.
Context {W : Type}.

Definition ret {A} (a : A) : M W A := fun st => (Ok a, st).

Definition bind {A B} (c : M W A) (k : A → M W B) : M W B :=
  fun st =>
    match c st with
    | (Ok a, st') => k a st'
    | (Raise e, st') => (Raise e, st')
    end.

Definition raise {A} (e : exception) : M W A := fun st => (Raise e, st).

(** [try: body  except cls as e: handler e]. *)
Definition try_except {A} (body : M W A) (cls : exception → bool)
    (handler : exception → M W A) : M W A :=
  fun st =>
    match body st with
    | (Raise e, st') => if cls e then handler e st' else (Raise e, st')
    | r => r
    end.

Definition with_world (w : W) (st : state W) : state W :=
  {| environ := environ st; modules := modules st; world := w;
     calls := calls st; log := log st; stdout := stdout st;
     summary := summary st |}.

Definition with_calls (c : list request) (st : state W) : state W :=
  {| environ := environ st; modules := modules st; world := world st;
     calls := c; log := log st; stdout := stdout st;
     summary := summary st |}.

Definition with_log (l : list (level * list log_arg)) (st : state W) : state W :=
  {| environ := environ st; modules := modules st; world := world st;
     calls := calls st; log := l; stdout := stdout st;
     summary := summary st |}.

Definition with_stdout (o : list string) (st : state W) : state W :=
  {| environ := environ st; modules := modules st; world := world st;
     calls := calls st; log := log st; stdout := o;
     summary := summary st |}.

Definition with_summary (s : Summary) (st : state W) : state W :=
  {| environ := environ st; modules := modules st; world := world st;
     calls := calls st; log := log st; stdout := stdout st;
     summary := s |}.

(** [logger.info], [logger.warning], [logger.error]. *)
Definition logger (lvl : level) (msg : list log_arg) : M W unit :=
  fun st => (Ok tt, with_log (log st ++ [(lvl, msg)]) st).

(** [print(text)]. *)
Definition print (text : string) : M W unit :=
  fun st => (Ok tt, with_stdout (stdout st ++ [text]) st).

(** [os.getenv(key, default)]. *)
Definition getenv (key : string) (dflt : value) : M W value :=
  fun st => (Ok (from_option PyStr dflt (environ st !! key)), st).

(** [import name]. *)
Definition import (name : string) : M W unit :=
  fun st =>
    if decide (name ∈ modules st) then (Ok tt, st)
    else (Raise (ImportError ("No module named '" +:+ name +:+ "'")), st).

(** [sys.exit(code)]. *)
Definition sys_exit {A} (code : Z) : M W A := raise (SystemExit code).

Definition get_summary : M W Summary := fun st => (Ok (summary st), st).

Definition set_summary (s : Summary) : M W unit :=
  fun st => (Ok tt, with_summary s st).
End Effects.

Declare Scope py_scope.
Delimit Scope py_scope with py.
Notation "x <- c ;; k" := (bind c (fun x => k))
  (at level 100, c at next level, right associativity) : py_scope.
Notation "c ;; k" := (bind c (fun _ => k))
  (at level 100, right associativity) : py_scope.
Open Scope py_scope.

(** [a or b] on Python values. *)
Definition py_or (a b : value) : value := if truthy a then a else b.

(** ** The [requests] library *)

(** The type name [json.dumps] complains about, when a leaf of the
    payload does not serialise. *)
Fixpoint unserializable (j : json) : option string :=
  match j with
  | JVal (PyDate _ _ _) => Some "date"
  | JVal (PyObjectId _) => Some "ObjectId"
  | JVal _ => None
  | JArr items =>
      (fix go (l : list json) : option string :=
         match l with
         | [] => None
         | x :: l' =>
             match unserializable x with Some t => Some t | None => go l' end
         end) items
  | JObj members =>
      (fix go (l : list (string * json)) : option string :=
         match l with
         | [] => None
         | (_, x) :: l' =>
             match unserializable x with Some t => Some t | None => go l' end
         end) members
  end.

Definition payload_of (req : request) : json :=
  match req with POST _ _ p => p | PATCH _ _ p => p end.

Section Requests.
Context `{Outside W}.

(** [requests.post] and [requests.patch]: serialise the payload, send
    the request, hand back the response.  A payload that does not
    serialise makes [json.dumps] raise [TypeError] before anything is
    sent. *)
Definition requests_send (req : request) : M W response :=
  fun st =>
    match unserializable (payload_of req) with
    | Some ty =>
        (Raise (TypeError
                  ("Object of type " +:+ ty +:+ " is not JSON serializable")),
         st)
    | None =>
        let '(answer, w) := send req (world st) in
        let st' := with_calls (calls st ++ [req]) (with_world w st) in
        match answer with
        | inl msg => (Raise (RequestException msg None), st')
        | inr resp => (Ok resp, st')
        end
    end.

Definition requests_post (url : string) (headers : list (string * string))
    (payload : json) : M W response :=
  requests_send (POST url headers payload).

Definition requests_patch (url : string) (headers : list (string * string))
    (payload : json) : M W response :=
  requests_send (PATCH url headers payload).

(** [response.raise_for_status()]. *)
Definition raise_for_status (r : response) : M W unit :=
  match http_error r with
  | Some msg => raise (RequestException msg (Some r))
  | None => ret tt
  end.

(** [response.json()]. *)
Definition response_json (r : response) : M W body :=
  match decoded r with
  | inl msg => raise (RequestException msg None)
  | inr b => ret b
  end.
End Requests.

(** ** The remote page client *)

Record NotionDatabaseSync := {
  notion_token : value;
  database_id : value;
  headers : list (string * string);
  base_url : string
}.

Definition fresh_summary : Summary :=
  {| created := 0; updated := 0; errors := 0; error_details := [] |}.

Section Client.
Context `{Outside W}.

(** [NotionDatabaseSync.__init__]. *)
Definition NotionDatabaseSync_init (notion_token database_id : value)
    : M W NotionDatabaseSync :=
  env_token <- getenv "NOTION_TOKEN" PyNone ;;
  let notion_token := py_or notion_token env_token in
  env_database <- getenv "NOTION_DATABASE_ID" PyNone ;;
  let database_id := py_or database_id env_database in
  if negb (truthy notion_token) || negb (truthy database_id) then
    raise (ValueError
             ("NOTION_TOKEN and NOTION_DATABASE_ID must be provided " +:+
              "either as arguments or environment variables"))
  else
    ret {| notion_token := notion_token;
           database_id := database_id;
           headers := [ ("Authorization", "Bearer " +:+ str notion_token);
                        ("Content-Type", "application/json");
                        ("Notion-Version", "2022-06-28") ];
           base_url := "https://api.notion.com/v1" |}.

Definition create_page (self : NotionDatabaseSync) (data : Record) : M W body :=
  let url := base_url self +:+ "/pages" in
  let properties := _format_properties data in
  let payload :=
    JObj [ ("parent", JObj [("database_id", JVal (database_id self))]);
           ("properties", JObj properties) ] in
  try_except
    (response <- requests_post url (headers self) payload ;;
     raise_for_status response ;;
     logger INFO
       [Text ("Successfully created page for UID: " +:+ str (get data "uid"))] ;;
     response_json response)
    is_RequestException
    (fun e =>
       logger ERROR [Text ("Error creating page: " +:+ exc_str e)] ;;
       match e with
       | RequestException _ (Some r) =>      (* hasattr(e.response, 'json') *)
           b <- response_json r ;;
           logger ERROR [Text "Response: "; ReprBody b]
       | _ => ret tt
       end ;;
       raise e).

(** Returns the page id, or [None]. *)
Definition check_if_exists (self : NotionDatabaseSync) (uid : value) : M W value :=
  let url :=
    base_url self +:+ "/databases/" +:+ str (database_id self) +:+ "/query" in
  let filter_data :=
    JObj [ ("filter",
            JObj [ ("property", JStr "UID");
                   ("rich_text", JObj [("equals", JVal uid)]) ]) ] in
  try_except
    (response <- requests_post url (headers self) filter_data ;;
     raise_for_status response ;;
     b <- response_json response ;;
     let results := default [] (results b) in
     match results with
     | id :: _ => ret id                       (* results[0]["id"] *)
     | [] => ret PyNone
     end)
    is_RequestException
    (fun e =>
       logger ERROR [Text ("Error checking existence: " +:+ exc_str e)] ;;
       raise e).

Definition update_page (self : NotionDatabaseSync) (page_id : value)
    (data : Record) : M W body :=
  let url := base_url self +:+ "/pages/" +:+ str page_id in
  let properties := update_properties data in
  let payload := JObj [("properties", JObj properties)] in
  try_except
    (response <- requests_patch url (headers self) payload ;;
     raise_for_status response ;;
     logger INFO [Text ("Successfully updated page: " +:+ str page_id)] ;;
     response_json response)
    is_RequestException
    (fun e =>
       logger ERROR [Text ("Error updating page: " +:+ exc_str e)] ;;
       raise e).

(** *** The sync loop *)

(** [summary[counter] += 1] and [summary["error_details"].append(...)]. *)
Definition incr_created : M W unit :=
  s <- get_summary ;;
  set_summary {| created := created s + 1; updated := updated s;
                 errors := errors s; error_details := error_details s |}.

Definition incr_updated : M W unit :=
  s <- get_summary ;;
  set_summary {| created := created s; updated := updated s + 1;
                 errors := errors s; error_details := error_details s |}.

Definition incr_errors : M W unit :=
  s <- get_summary ;;
  set_summary {| created := created s; updated := updated s;
                 errors := errors s + 1; error_details := error_details s |}.

Definition append_error_detail (d : ErrorDetail) : M W unit :=
  s <- get_summary ;;
  set_summary {| created := created s; updated := updated s;
                 errors := errors s;
                 error_details := error_details s ++ [d] |}.

(** The body of the [for] loop of [sync_from_database], for one row. *)
Definition sync_record (self : NotionDatabaseSync) (rec : Record) : M W unit :=
  try_except
    (let uid := get rec "uid" in
     if negb (truthy uid) then
       logger WARNING [Text "Skipping record without UID: "; ReprRecord rec] ;;
       incr_errors ;;
       append_error_detail {| record := rec; error := "Missing UID" |}
     else
       existing_page_id <- check_if_exists self uid ;;
       if truthy existing_page_id then
         logger INFO [Text ("Updating existing record: " +:+ str uid)] ;;
         update_page self existing_page_id rec ;;
         incr_updated
       else
         logger INFO [Text ("Creating new record: " +:+ str uid)] ;;
         create_page self rec ;;
         incr_created)
    is_Exception
    (fun e =>
       logger ERROR
         [Text ("Error processing record "
                +:+ str (from_option id (PyStr "unknown") (rec !! "uid"))
                +:+ ": " +:+ exc_str e)] ;;
       incr_errors ;;
       append_error_detail {| record := rec; error := exc_str e |}).

(** [for x in xs: body x]. *)
Fixpoint for_each {A} (xs : list A) (body : A → M W unit) : M W unit :=
  match xs with
  | [] => ret tt
  | x :: xs' => body x ;; for_each xs' body
  end.

Definition sync_from_database (self : NotionDatabaseSync)
    (records : list Record) : M W Summary :=
  set_summary fresh_summary ;;
  for_each records (sync_record self) ;;
  s <- get_summary ;;
  logger INFO
    [Text ("Sync Summary: Created: " +:+ pretty (created s) +:+ ", "
           +:+ "Updated: " +:+ pretty (updated s)
           +:+ ", Errors: " +:+ pretty (errors s))] ;;
  get_summary.
End Client.

(** ** Database connectors *)

(** The four subclasses of [DatabaseConnector]; the factory builds no
    instance of the abstract base class. *)
Inductive DatabaseConnector :=
| PostgreSQLConnector
| MySQLConnector
| MongoDBConnector
| SQLiteConnector.

Definition connectors : list (string * DatabaseConnector) :=
  [ ("postgresql", PostgreSQLConnector);
    ("mysql", MySQLConnector);
    ("mongodb", MongoDBConnector);
    ("sqlite", SQLiteConnector) ].

(** [connectors.get(db_type)]. *)
Definition connectors_get (db_type : value) : option DatabaseConnector :=
  match db_type with
  | PyStr name => getitem connectors name
  | _ => None
  end.

Definition default_query : string :=
  "
    SELECT 
        uid, name, status, reviewer_name, 
        review_date, next_follow_up, date_added, 
        platform, socials
    FROM fud_outreach_tracker
    WHERE sync_status IS NULL OR sync_status != 'synced'
    ORDER BY date_added DESC
".

Section Connectors.
Context `{Outside W}.

(** [DatabaseConnector.get_connector]; [db_type] is [None] when the
    caller passes nothing. *)
Definition get_connector (db_type : value) : M W DatabaseConnector :=
  env_type <- getenv "DB_TYPE" (PyStr "postgresql") ;;
  let db_type := py_or db_type env_type in
  match connectors_get db_type with
  | Some connector_class => ret connector_class
  | None => raise (ValueError ("Unsupported database type: " +:+ str db_type))
  end.

(** Connect, run the query, fetch every row, close. *)
Definition run_driver (req : db_request) : M W (list Record) :=
  fun st =>
    let '(answer, w) := execute req (world st) in
    match answer with
    | inl msg => (Raise (DriverError msg), with_world w st)
    | inr rows => (Ok rows, with_world w st)
    end.

(** The [try: import ... except ImportError: ...] that opens a
    connector: [true] when the driver was imported, [false] after the
    handler has logged [hint]. *)
Definition import_driver (names : list string) (hint : string) : M W bool :=
  try_except
    (for_each names import ;; ret true)
    is_ImportError
    (fun _ => logger ERROR [Text hint] ;; ret false).

Definition connection_params (default_port : Z) : M W (list (string * value)) :=
  host <- getenv "DB_HOST" PyNone ;;
  database <- getenv "DB_NAME" PyNone ;;
  user <- getenv "DB_USER" PyNone ;;
  password <- getenv "DB_PASSWORD" PyNone ;;
  port <- getenv "DB_PORT" (PyInt default_port) ;;
  ret [ ("host", host); ("database", database); ("user", user);
        ("password", password); ("port", port) ].

Definition PostgreSQLConnector_fetch_records : M W (list Record) :=
  imported <- import_driver ["psycopg2"; "psycopg2.extras"]
                "psycopg2 not installed. Run: pip install psycopg2-binary" ;;
  if negb imported then ret []
  else
    params <- connection_params 5432 ;;
    query <- getenv "DB_QUERY" (PyStr default_query) ;;
    run_driver (SqlQuery "psycopg2" params (str query)).

Definition MySQLConnector_fetch_records : M W (list Record) :=
  imported <- import_driver ["mysql.connector"]
                ("mysql-connector-python not installed. " +:+
                 "Run: pip install mysql-connector-python") ;;
  if negb imported then ret []
  else
    params <- connection_params 3306 ;;
    query <- getenv "DB_QUERY" (PyStr default_query) ;;
    run_driver (SqlQuery "mysql.connector" params (str query)).

(** [record["_id"] = str(record["_id"])], when the row has an ["_id"]. *)
Definition stringify_id (rec : Record) : Record :=
  match rec !! "_id" with
  | Some oid => <["_id" := PyStr (str oid)]> rec
  | None => rec
  end.

Definition MongoDBConnector_fetch_records : M W (list Record) :=
  imported <- import_driver ["pymongo"]
                "pymongo not installed. Run: pip install pymongo" ;;
  if negb imported then ret []
  else
    override <- getenv "MONGO_CONNECTION_STRING" PyNone ;;
    user <- getenv "DB_USER" PyNone ;;
    password <- getenv "DB_PASSWORD" PyNone ;;
    host <- getenv "DB_HOST" PyNone ;;
    port <- getenv "DB_PORT" (PyInt 27017) ;;
    name <- getenv "DB_NAME" PyNone ;;
    let connection_string :=
      py_or override
        (PyStr ("mongodb://" +:+ str user +:+ ":" +:+ str password +:+ "@"
                +:+ str host +:+ ":" +:+ str port +:+ "/" +:+ str name)) in
    collection <- getenv "DB_COLLECTION" (PyStr "fud_outreach_tracker") ;;
    let query := JObj [("sync_status", JObj [("$ne", JStr "synced")])] in
    records <- run_driver (MongoFind (str connection_string) name collection query) ;;
    ret (map stringify_id records).

Definition SQLiteConnector_fetch_records : M W (list Record) :=
  import "sqlite3" ;;
  db_path <- getenv "SQLITE_DB_PATH" (PyStr "database.db") ;;
  query <- getenv "DB_QUERY" (PyStr default_query) ;;
  run_driver (SqlQuery "sqlite3" [("database", db_path)] (str query)).

(** [connector.fetch_records()], by dynamic dispatch. *)
Definition fetch_records (connector : DatabaseConnector) : M W (list Record) :=
  match connector with
  | PostgreSQLConnector => PostgreSQLConnector_fetch_records
  | MySQLConnector => MySQLConnector_fetch_records
  | MongoDBConnector => MongoDBConnector_fetch_records
  | SQLiteConnector => SQLiteConnector_fetch_records
  end.
End Connectors.

(** ** The script *)

Definition newline : string := String (Ascii.ascii_of_nat 10) "".

(** [s * n]. *)
Definition repeat_str (s : string) (n : nat) : string :=
  String.concat "" (replicate n s).

Section Script.
Context `{Outside W}.

Definition print_error_detail (d : ErrorDetail) : M W unit :=
  print ("  - UID "
         +:+ str (from_option id (PyStr "unknown") (record d !! "uid"))
         +:+ ": " +:+ error d).

(** The suite of the [try] of [main]. *)
Definition main_body : M W unit :=
  logger INFO [Text "Initializing Notion sync client..."] ;;
  sync_client <- NotionDatabaseSync_init PyNone PyNone ;;
  db_type <- getenv "DB_TYPE" (PyStr "postgresql") ;;
  logger INFO [Text ("Connecting to " +:+ str db_type +:+ " database...")] ;;
  connector <- get_connector db_type ;;
  logger INFO [Text "Fetching data from internal database..."] ;;
  records <- fetch_records connector ;;
  logger INFO [Text ("Found " +:+ pretty (length records) +:+ " records to sync")] ;;
  match records with
  | [] => logger INFO [Text "No records to sync"]
  | _ :: _ =>
      logger INFO [Text "Syncing to Notion..."] ;;
      summary <- sync_from_database sync_client records ;;
      print (newline +:+ repeat_str "=" 50) ;;
      print "SYNC COMPLETE" ;;
      print (repeat_str "=" 50) ;;
      print ("✅ Created: " +:+ pretty (created summary) +:+ " new records") ;;
      print ("📝 Updated: " +:+ pretty (updated summary) +:+ " existing records") ;;
      print ("❌ Errors: " +:+ pretty (errors summary) +:+ " failed records") ;;
      match error_details summary with
      | [] => ret tt
      | _ :: _ =>
          print (newline +:+ "Error Details:") ;;
          for_each (take 5 (error_details summary)) print_error_detail
      end ;;
      if (0 <? errors summary)%nat then sys_exit 1 else ret tt
  end.

Definition main : M W unit :=
  try_except main_body is_Exception
    (fun e =>
       logger ERROR [Text ("Fatal error: " +:+ exc_str e)] ;;
       sys_exit 1).

(** The exit status of the interpreter after [main()]: zero when
    [main] returns, the argument of [sys.exit] when it raises
    [SystemExit], one for any other uncaught exception. *)
Definition exit_status (r : result unit) : Z :=
  match r with
  | Ok _ => 0
  | Raise (SystemExit code) => code
  | Raise _ => 1
  end.
End Script.

(** A process that has just started: nothing sent, logged or printed. *)
Definition boot {W} (env : gmap string string) (mods : gset string) (w : W)
    : state W :=
  {| environ := env; modules := mods; world := w;
     calls := []; log := []; stdout := []; summary := fresh_summary |}.


(** ** Vocabulary of the statements *)

(** What one row of [property_mapping] contributes for a field value:
    nothing for [None], nothing for an empty date, the typed payload
    otherwise. *)
Definition property_value (prop_type : string) (v : value) : option json :=
  if is_None v then None
  else if prop_type =? "title" then
    Some (JObj [("title", JArr [JObj [("text", JObj [("content", JStr (str v))])]])])
  else if prop_type =? "rich_text" then
    Some (JObj [("rich_text", JArr [JObj [("text", JObj [("content", JStr (str v))])]])])
  else if prop_type =? "select" then
    Some (JObj [("select", JObj [("name", JStr (str v))])])
  else if (prop_type =? "date") && truthy v then
    Some (JObj [("date", JObj [("start", JStr (str v))])])
  else None.

(** A member of a dictionary whose value [json.dumps] accepts. *)
Definition serializable_member (kv : string * json) : Prop :=
  unserializable kv.2 = None.

Section Vocabulary.
Context `{Outside W}.

(** A computation of the remote page client: it leaves the summary, the
    environment and the installed modules alone, and whatever it raises
    derives from [Exception]. *)
Definition client_op {A} (c : M W A) : Prop :=
  ∀ st,
    summary (c st).2 = summary st ∧
    environ (c st).2 = environ st ∧
    modules (c st).2 = modules st ∧
    match (c st).1 with
    | Raise e => is_Exception e = true
    | Ok _ => True
    end.

(** The summary after one more row: exactly one counter is one higher,
    and [error_details] grows by one entry exactly when [errors] does. *)
Definition one_more (s s' : Summary) : Prop :=
  (created s' = created s + 1 ∧ updated s' = updated s ∧
   errors s' = errors s ∧ error_details s' = error_details s)
  ∨ (created s' = created s ∧ updated s' = updated s + 1 ∧
     errors s' = errors s ∧ error_details s' = error_details s)
  ∨ (created s' = created s ∧ updated s' = updated s ∧
     errors s' = errors s + 1 ∧
     ∃ d, error_details s' = (error_details s ++ [d])%list).

(** The summary after one more failed row. *)
Definition failed_with (rec : Record) (msg : string) (s s' : Summary) : Prop :=
  created s' = created s ∧ updated s' = updated s ∧
  errors s' = errors s + 1 ∧
  error_details s' = (error_details s ++ [{| record := rec; error := msg |}])%list.

(** One of the remote calls made for a row raises [e] and leaves the
    state [st']: the existence check, or the update that follows a found
    page, or the create that follows a missing one. *)
Inductive remote_failure (self : NotionDatabaseSync) (rec : Record)
    (st : state W) (e : exception) (st' : state W) : Prop :=
| exists_fails :
    truthy (get rec "uid") = true →
    check_if_exists self (get rec "uid") st = (Raise e, st') →
    remote_failure self rec st e st'
| update_fails page_id st1 :
    truthy (get rec "uid") = true →
    check_if_exists self (get rec "uid") st = (Ok page_id, st1) →
    truthy page_id = true →
    update_page self page_id rec
      (logger INFO [Text ("Updating existing record: " +:+ str (get rec "uid"))] st1).2
    = (Raise e, st') →
    remote_failure self rec st e st'
| create_fails page_id st1 :
    truthy (get rec "uid") = true →
    check_if_exists self (get rec "uid") st = (Ok page_id, st1) →
    truthy page_id = false →
    create_page self rec
      (logger INFO [Text ("Creating new record: " +:+ str (get rec "uid"))] st1).2
    = (Raise e, st') →
    remote_failure self rec st e st'.
End Vocabulary.

Section Outcomes.
Context `{Outside W}.

(** The row was rejected for want of a uid: nothing was sent, the world
    was not touched, and the row is counted as failed with the message
    ["Missing UID"]. *)
Definition rejected (self : NotionDatabaseSync) (rec : Record)
    (st st' : state W) : Prop :=
  sync_record self rec st = (Ok tt, st') ∧
  calls st' = calls st ∧ world st' = world st ∧
  failed_with rec "Missing UID" (summary st) (summary st').
End Outcomes.

(** ** Sample worlds *)

(** Nothing answers: every request and every query fails in transport. *)
Definition offline : Outside unit :=
  {| send _ w := (inl "Connection refused", w);
     execute _ w := (inl "could not connect to server", w) |}.

(** The uid a query filters on. *)
Definition queried_uid (payload : json) : option value :=
  match payload with
  | JObj [(_, JObj [_; (_, JObj [(_, JVal uid)])])] => Some uid
  | _ => None
  end.

(** A remote that holds the uids of its pages, next to a database that
    holds rows: a query finds the page of a known uid, any other [POST]
    succeeds, and so does a [PATCH]. *)
Definition directory : Outside (list string * list Record) :=
  {| send req w :=
       match req with
       | POST _ _ payload =>
           match queried_uid payload with
           | Some uid =>
               if bool_decide (str uid ∈ w.1)
               then (inr {| http_error := None;
                            decoded := inr {| results := Some [PyStr ("page-" +:+ str uid)] |} |}, w)
               else (inr {| http_error := None;
                            decoded := inr {| results := Some [] |} |}, w)
           | None =>
               (inr {| http_error := None; decoded := inr {| results := None |} |}, w)
           end
       | PATCH _ _ _ =>
           (inr {| http_error := None; decoded := inr {| results := None |} |}, w)
       end;
     execute _ w := (inr w.2, w) |}.

(** A gateway that answers every request with status 502 and a page of
    HTML, in front of a database without rows. *)
Definition bad_gateway : Outside unit :=
  {| send _ w :=
       (inr {| http_error := Some "502 Server Error: Bad Gateway";
               decoded := inl "Expecting value: line 1 column 1 (char 0)" |}, w);
     execute _ w := (inr [], w) |}.


(** A client as [__init__] builds it from the token ["secret"] and the
    database ["db"]. *)
Definition sample_client : NotionDatabaseSync :=
  {| notion_token := PyStr "secret";
     database_id := PyStr "db";
     headers := [ ("Authorization", "Bearer secret");
                  ("Content-Type", "application/json");
                  ("Notion-Version", "2022-06-28") ];
     base_url := "https://api.notion.com/v1" |}.

(** ** Drivers *)

(** The modules a connector imports before it connects. *)
Definition driver_modules (connector : DatabaseConnector) : list string :=
  match connector with
  | PostgreSQLConnector => ["psycopg2"; "psycopg2.extras"]
  | MySQLConnector => ["mysql.connector"]
  | MongoDBConnector => ["pymongo"]
  | SQLiteConnector => ["sqlite3"]
  end.

Definition driver_unavailable {W} (connector : DatabaseConnector)
    (st : state W) : Prop :=
  ∃ name, name ∈ driver_modules connector ∧ name ∉ modules st.

(** The connector gives up softly: it returns no rows, and all it leaves
    behind is one logged error. *)
Definition degrades `{Outside W} (connector : DatabaseConnector)
    (st : state W) : Prop :=
  ∃ hint,
    fetch_records connector st
    = (Ok [], with_log (log st ++ [(ERROR, [Text hint])]) st).

(** A host on which every third-party driver is installed and the
    [sqlite3] module is not. *)
Definition without_sqlite3 : state unit :=
  boot ∅ {[ "psycopg2"; "psycopg2.extras"; "mysql.connector"; "pymongo" ]} tt.

(** ** The two halves of [main] *)

Section MainHalves.
Context `{Outside W}.

(** The suite of the [try] of [main] up to the fetched rows: the client
    and the rows it goes on with. *)
Definition startup : M W (NotionDatabaseSync * list Record) :=
  logger INFO [Text "Initializing Notion sync client..."] ;;
  sync_client <- NotionDatabaseSync_init PyNone PyNone ;;
  db_type <- getenv "DB_TYPE" (PyStr "postgresql") ;;
  logger INFO [Text ("Connecting to " +:+ str db_type +:+ " database...")] ;;
  connector <- get_connector db_type ;;
  logger INFO [Text "Fetching data from internal database..."] ;;
  records <- fetch_records connector ;;
  logger INFO [Text ("Found " +:+ pretty (length records) +:+ " records to sync")] ;;
  ret (sync_client, records).

(** The rest of the suite, from [if not records:] on. *)
Definition after_startup (sync_client : NotionDatabaseSync)
    (records : list Record) : M W unit :=
  match records with
  | [] => logger INFO [Text "No records to sync"]
  | _ :: _ =>
      logger INFO [Text "Syncing to Notion..."] ;;
      summary <- sync_from_database sync_client records ;;
      print (newline +:+ repeat_str "=" 50) ;;
      print "SYNC COMPLETE" ;;
      print (repeat_str "=" 50) ;;
      print ("✅ Created: " +:+ pretty (created summary) +:+ " new records") ;;
      print ("📝 Updated: " +:+ pretty (updated summary) +:+ " existing records") ;;
      print ("❌ Errors: " +:+ pretty (errors summary) +:+ " failed records") ;;
      match error_details summary with
      | [] => ret tt
      | _ :: _ =>
          print (newline +:+ "Error Details:") ;;
          for_each (take 5 (error_details summary)) print_error_detail
      end ;;
      if (0 <? errors summary)%nat then sys_exit 1 else ret tt
  end.

(** A computation that sends nothing and leaves the summary alone, and
    whose exceptions all derive from [Exception]. *)
Definition local_op {A} (c : M W A) : Prop :=
  ∀ st,
    calls (c st).2 = calls st ∧
    summary (c st).2 = summary st ∧
    match (c st).1 with
    | Raise e => is_Exception e = true
    | Ok _ => True
    end.

(** A computation that only prints and then ends in [r]. *)
Definition prints_then {A} (r : result A) (c : M W A) : Prop :=
  ∀ st, ∃ out, c st = (r, with_stdout out st).
End MainHalves.

(** A configured host with the SQLite driver, in front of [directory]. *)
Definition configured (pages : list string) (rows : list Record)
    : state (list string * list Record) :=
  boot {[ "NOTION_TOKEN" := "secret"; "NOTION_DATABASE_ID" := "db";
          "DB_TYPE" := "sqlite" ]}
       {[ "sqlite3" ]} (pages, rows).

(** ** Names of the mapping table *)

(** The fields of a row that the formatter reads. *)
Definition mapped_fields : list string :=
  map (fun entry => entry.2.1) property_mapping.

(** The properties an update may carry: those of [update_fields]. *)
Definition update_props : list string :=
  ["Status"; "Platform"; "Socials"; "Reviewer Name"; "Review Date";
   "Next Follow Up"].

(** ** The three requests of the client *)

(** The query of [check_if_exists] for a uid. *)
Definition query_request (self : NotionDatabaseSync) (uid : value) : request :=
  POST (base_url self +:+ "/databases/" +:+ str (database_id self) +:+ "/query")
    (headers self)
    (JObj [ ("filter",
             JObj [ ("property", JStr "UID");
                    ("rich_text", JObj [("equals", JVal uid)]) ]) ]).

(** The request of [create_page] for a row. *)
Definition create_request (self : NotionDatabaseSync) (data : Record) : request :=
  POST (base_url self +:+ "/pages") (headers self)
    (JObj [ ("parent", JObj [("database_id", JVal (database_id self))]);
            ("properties", JObj (_format_properties data)) ]).

(** The request of [update_page] for a page and a row. *)
Definition update_request (self : NotionDatabaseSync) (page_id : value)
    (data : Record) : request :=
  PATCH (base_url self +:+ "/pages/" +:+ str page_id) (headers self)
    (JObj [("properties", JObj (update_properties data))]).

(** The state once [req] has been sent and the world has moved to [w]. *)
Definition sent {W} (req : request) (w : W) (st : state W) : state W :=
  with_calls (calls st ++ [req]) (with_world w st).

(** The state with one more log record. *)
Definition logged {W} (lvl : level) (msg : list log_arg) (st : state W)
    : state W :=
  with_log (log st ++ [(lvl, msg)]) st.

(** ** Counting requests *)

(** A computation that sends at most [n] requests, after those already
    sent. *)
Definition sends_at_most {W A} (n : nat) (c : M W A) : Prop :=
  ∀ st, ∃ new, calls (c st).2 = (calls st ++ new)%list ∧ (length new ≤ n)%nat.

(** ** Settings *)

(** A setting that is absent from the environment, or empty. *)
Definition unset {W} (key : string) (st : state W) : Prop :=
  environ st !! key = None ∨ environ st !! key = Some "".

(** The backend [main] asks the factory for: the [DB_TYPE] setting, or
    ["postgresql"]. *)
Definition backend {W} (st : state W) : value :=
  from_option PyStr (PyStr "postgresql") (environ st !! "DB_TYPE").

(** The client [__init__] builds from a token and a database id. *)
Definition client_of (token database : string) : NotionDatabaseSync :=
  {| notion_token := PyStr token;
     database_id := PyStr database;
     headers := [ ("Authorization", "Bearer " +:+ token);
                  ("Content-Type", "application/json");
                  ("Notion-Version", "2022-06-28") ];
     base_url := "https://api.notion.com/v1" |}.

(** The state when [main] starts to fetch: three records logged. *)
Definition about_to_fetch {W} (st : state W) : state W :=
  logged INFO [Text "Fetching data from internal database..."]
    (logged INFO [Text ("Connecting to " +:+ str (backend st) +:+ " database...")]
       (logged INFO [Text "Initializing Notion sync client..."] st)).

(** ** Frames *)

(** A computation that leaves the component [f] of the state as it
    finds it. *)
Definition keeps {W X A} (f : state W → X) (c : M W A) : Prop :=
  ∀ st, f (c st).2 = f st.

(** ** The report *)

(** What [main] prints for one failure: the uid of the row, or
    ["unknown"] for a row that has no such field, and the message. *)
Definition detail_line (d : ErrorDetail) : string :=
  "  - UID " +:+ str (from_option id (PyStr "unknown") (record d !! "uid"))
  +:+ ": " +:+ error d.

(** What [main] prints for a summary, call by call: a banner that opens
    with a line break, the three counts, and for a summary with failures
    a heading that opens with a line break and the first five of them. *)
Definition report (s : Summary) : list string :=
  ([ newline +:+ repeat_str "=" 50;
     "SYNC COMPLETE";
     repeat_str "=" 50;
     "✅ Created: " +:+ pretty (created s) +:+ " new records";
     "📝 Updated: " +:+ pretty (updated s) +:+ " existing records";
     "❌ Errors: " +:+ pretty (errors s) +:+ " failed records" ]
   ++ match error_details s with
      | [] => []
      | _ :: _ =>
          (newline +:+ "Error Details:")
          :: map detail_line (take 5 (error_details s))
      end)%list.

(** ** A run of the sync, cut at one row *)

Section Runs.
Context `{Outside W}.

(** A run of [sync_from_database] over [before ++ rec :: after], cut at
    [rec]: the loop takes up [rec] in [st1] and leaves it in [st2], runs
    on through [after] to its end, and the function returns, in [st'],
    the summary the loop has built, in which every row of the input is
    counted and nothing recorded for [rec] is lost. *)
Definition sync_run (self : NotionDatabaseSync) (before : list Record)
    (rec : Record) (after : list Record) (st st1 st2 st' : state W) : Prop :=
  for_each before (sync_record self) (with_summary fresh_summary st)
  = (Ok tt, st1) ∧
  sync_record self rec st1 = (Ok tt, st2) ∧
  ∃ st3 later,
    for_each after (sync_record self) st2 = (Ok tt, st3) ∧
    error_details (summary st3) = (error_details (summary st2) ++ later)%list ∧
    sync_from_database self (before ++ rec :: after) st
    = (Ok (summary st'), st') ∧
    summary st' = summary st3 ∧ calls st' = calls st3 ∧ world st' = world st3 ∧
    created (summary st') + updated (summary st') + errors (summary st')
    = length (before ++ rec :: after).
End Runs.

(** ** What a connector asks of its driver *)

(** [os.getenv(key, dflt)] on an environment. *)
Definition setting (env : gmap string string) (key : string) (dflt : value)
    : value :=
  from_option PyStr dflt (env !! key).


(** * Proofs *)

(** ** Insertion-ordered dictionaries *)

Section OrderedDictFacts.
Context {A : Type}.
Implicit Types (d : list (string * A)) (k : string) (v : A).

Lemma getitem_setitem d k v k' :
  getitem (setitem d k v) k' = if k =? k' then Some v else getitem d k'.
Proof.
  induction d as [|[k0 v0] d IH]; simpl.
  - reflexivity.
  - destruct (String.eqb_spec k0 k) as [->|Hne]; simpl.
    + destruct (String.eqb_spec k k'); reflexivity.
    + rewrite IH.
      destruct (String.eqb_spec k0 k') as [->|]; [|reflexivity].
      destruct (String.eqb_spec k k'); congruence.
Qed.

Lemma keys_setitem d k v k' :
  k' ∈ keys (setitem d k v) ↔ k' = k ∨ k' ∈ keys d.
Proof.
  unfold keys. induction d as [|[k0 v0] d IH]; simpl.
  - rewrite list_elem_of_singleton. set_solver.
  - destruct (String.eqb_spec k0 k) as [->|Hne]; simpl.
    + set_solver.
    + rewrite !elem_of_cons, IH. naive_solver.
Qed.

Lemma NoDup_keys_setitem d k v : NoDup (keys d) → NoDup (keys (setitem d k v)).
Proof.
  unfold keys. induction d as [|[k0 v0] d IH]; simpl; intros Hd.
  - apply NoDup_singleton.
  - apply NoDup_cons in Hd as [Hk0 Hd].
    destruct (String.eqb_spec k0 k) as [->|Hne]; simpl.
    + apply NoDup_cons; auto.
    + apply NoDup_cons. split; [|auto].
      intros Hin. apply (keys_setitem d k v k0) in Hin as [?|?]; [congruence | by apply Hk0].
Qed.

Lemma getitem_None_keys d k : getitem d k = None ↔ k ∉ keys d.
Proof.
  unfold keys. induction d as [|[k0 v0] d IH]; simpl.
  - split; [intros _; apply not_elem_of_nil | reflexivity].
  - rewrite not_elem_of_cons.
    destruct (String.eqb_spec k0 k) as [->|Hne].
    + split; [discriminate | intros [? _]; congruence].
    + rewrite IH. naive_solver.
Qed.

Lemma keys_getitem d k : k ∈ keys d ↔ is_Some (getitem d k).
Proof.
  destruct (getitem d k) eqn:E.
  - split; [eauto|]. intros _.
    destruct (decide (k ∈ keys d)) as [|Hn]; [assumption|].
    apply getitem_None_keys in Hn. congruence.
  - apply getitem_None_keys in E. split; [contradiction|].
    intros [? ?]; discriminate.
Qed.

Lemma getitem_update d other k :
  NoDup (keys other) →
  getitem (update d other) k
  = match getitem other k with Some v => Some v | None => getitem d k end.
Proof.
  unfold update. revert d.
  induction other as [|[k0 v0] other IH]; simpl; intros d Hnd.
  - reflexivity.
  - apply NoDup_cons in Hnd as [Hk0 Hnd].
    rewrite IH by assumption. rewrite getitem_setitem.
    destruct (String.eqb_spec k0 k) as [->|Hne]; [|reflexivity].
    apply getitem_None_keys in Hk0. rewrite Hk0. reflexivity.
Qed.

Lemma getitem_elem_of d k v : getitem d k = Some v → (k, v) ∈ d.
Proof.
  induction d as [|[k0 v0] d IH]; simpl; [discriminate|].
  destruct (String.eqb_spec k0 k) as [->|Hne].
  - intros [= ->]. apply list_elem_of_here.
  - intros Hg. apply list_elem_of_further. auto.
Qed.

Lemma Forall_setitem (P : string * A → Prop) d k v :
  P (k, v) → Forall P d → Forall P (setitem d k v).
Proof.
  intros Hkv. induction d as [|[k0 v0] d IH]; simpl; intros Hd.
  - repeat constructor. assumption.
  - apply Forall_cons in Hd as [H0 Hd].
    destruct (String.eqb_spec k0 k) as [->|Hne]; constructor; auto.
Qed.
End OrderedDictFacts.

(** ** The property formatter *)

Lemma format_entry_property_value data properties prop key kind :
  format_entry data properties (prop, (key, kind))
  = match property_value kind (get data key) with
    | Some j => setitem properties prop j
    | None => properties
    end.
Proof.
  unfold format_entry, property_value.
  destruct (is_None (get data key)); [reflexivity|].
  destruct (kind =? "title"); [reflexivity|].
  destruct (kind =? "rich_text"); [reflexivity|].
  destruct (kind =? "select"); [reflexivity|].
  destruct ((kind =? "date") && truthy (get data key)); reflexivity.
Qed.

(** The loop over a mapping table with distinct property names: a
    property is set by its own row and by no other. *)
Lemma getitem_fold_format_entry data table properties prop :
  NoDup (keys table) →
  getitem (fold_left (format_entry data) table properties) prop
  = match getitem table prop with
    | Some (key, kind) =>
        match property_value kind (get data key) with
        | Some j => Some j
        | None => getitem properties prop
        end
    | None => getitem properties prop
    end.
Proof.
  revert properties.
  induction table as [|[p [key kind]] table IH]; intros properties Hnd.
  - reflexivity.
  - unfold keys in Hnd. cbn [map fst] in Hnd.
    apply NoDup_cons in Hnd as [Hp Hnd].
    cbn [fold_left getitem]. rewrite IH by assumption.
    rewrite format_entry_property_value.
    destruct (String.eqb_spec p prop) as [->|Hne].
    + apply getitem_None_keys in Hp. rewrite Hp.
      destruct (property_value kind (get data key)); [|reflexivity].
      rewrite getitem_setitem, String.eqb_refl. reflexivity.
    + assert (Hsame : getitem
                (match property_value kind (get data key) with
                 | Some j => setitem properties p j
                 | None => properties
                 end) prop = getitem properties prop).
      { destruct (property_value kind (get data key)); [|reflexivity].
        rewrite getitem_setitem.
        destruct (String.eqb_spec p prop); [contradiction|reflexivity]. }
      rewrite Hsame. reflexivity.
Qed.

Lemma property_mapping_NoDup : NoDup (keys property_mapping).
Proof. apply (bool_decide_unpack _). vm_compute. exact I. Qed.

Lemma format_properties_getitem data prop :
  getitem (_format_properties data) prop
  = match getitem property_mapping prop with
    | Some (key, kind) => property_value kind (get data key)
    | None => None
    end.
Proof.
  unfold _format_properties.
  rewrite getitem_fold_format_entry by apply property_mapping_NoDup.
  destruct (getitem property_mapping prop) as [[key kind]|]; [|reflexivity].
  destruct (property_value kind (get data key)); reflexivity.
Qed.

Lemma format_properties_NoDup data : NoDup (keys (_format_properties data)).
Proof.
  unfold _format_properties.
  assert (Hgen : ∀ table properties,
             NoDup (keys properties) →
             NoDup (keys (fold_left (format_entry data) table properties))).
  { induction table as [|[p [key kind]] table IH]; intros properties Hnd.
    - assumption.
    - cbn [fold_left]. apply IH. rewrite format_entry_property_value.
      destruct (property_value kind (get data key)); [|assumption].
      by apply NoDup_keys_setitem. }
  apply Hgen. apply NoDup_nil_2.
Qed.

Lemma property_value_serializable kind v j :
  property_value kind v = Some j → unserializable j = None.
Proof.
  unfold property_value.
  destruct (is_None v); [discriminate|].
  destruct (kind =? "title"); [intros [= <-]; reflexivity|].
  destruct (kind =? "rich_text"); [intros [= <-]; reflexivity|].
  destruct (kind =? "select"); [intros [= <-]; reflexivity|].
  destruct ((kind =? "date") && truthy v); [intros [= <-]; reflexivity|discriminate].
Qed.

Lemma property_value_not_null kind v j :
  property_value kind v = Some j → v ≠ PyNone ∧ j ≠ JVal PyNone.
Proof.
  unfold property_value. destruct v; simpl; try discriminate;
    (destruct (kind =? "title"); [intros [= <-]; split; discriminate|]);
    (destruct (kind =? "rich_text"); [intros [= <-]; split; discriminate|]);
    (destruct (kind =? "select"); [intros [= <-]; split; discriminate|]);
    (destruct (kind =? "date"); simpl; try discriminate);
    try (intros [= <-]; split; discriminate).
  - destruct b; [intros [= <-]; split; discriminate|discriminate].
  - destruct (negb (n =? 0)%Z); [intros [= <-]; split; discriminate|discriminate].
  - destruct (negb (s =? "")); [intros [= <-]; split; discriminate|discriminate].
Qed.

Lemma property_mapping_getitem prop key kind :
  (prop, (key, kind)) ∈ property_mapping ↔
  getitem property_mapping prop = Some (key, kind).
Proof.
  split.
  - unfold property_mapping. intros Hin.
    repeat (apply elem_of_cons in Hin as [[= -> -> ->]|Hin]; [reflexivity|]).
    by apply elem_of_nil in Hin.
  - apply getitem_elem_of.
Qed.

Lemma get_singleton field v key :
  get {[ field := v ]} key = if field =? key then v else PyNone.
Proof.
  unfold get. destruct (String.eqb_spec field key) as [->|Hne].
  - by rewrite lookup_singleton_eq.
  - by rewrite lookup_singleton_ne.
Qed.

(** ** The properties of an update *)

(** One turn of the loop of [update_page]. *)
Lemma getitem_update_field data properties field prop :
  getitem
    (match data !! field with
     | Some v => update properties (_format_properties {[ field := v ]})
     | None => properties
     end) prop
  = match getitem property_mapping prop with
    | Some (key, kind) =>
        if key =? field then
          match property_value kind (get data key) with
          | Some j => Some j
          | None => getitem properties prop
          end
        else getitem properties prop
    | None => getitem properties prop
    end.
Proof.
  destruct (data !! field) as [v|] eqn:Hv.
  - rewrite getitem_update by apply format_properties_NoDup.
    rewrite format_properties_getitem.
    destruct (getitem property_mapping prop) as [[key kind]|]; [|reflexivity].
    rewrite get_singleton, (String.eqb_sym key field).
    destruct (String.eqb_spec field key) as [->|Hne].
    + unfold get. rewrite Hv. reflexivity.
    + reflexivity.
  - destruct (getitem property_mapping prop) as [[key kind]|]; [|reflexivity].
    destruct (String.eqb_spec key field) as [->|Hne]; [|reflexivity].
    unfold get. rewrite Hv. reflexivity.
Qed.

Lemma getitem_fold_update_fields data fields properties prop :
  getitem
    (fold_left
       (fun properties field =>
          match data !! field with
          | Some v => update properties (_format_properties {[ field := v ]})
          | None => properties
          end) fields properties) prop
  = match getitem property_mapping prop with
    | Some (key, kind) =>
        if bool_decide (key ∈ fields) then
          match property_value kind (get data key) with
          | Some j => Some j
          | None => getitem properties prop
          end
        else getitem properties prop
    | None => getitem properties prop
    end.
Proof.
  revert properties.
  induction fields as [|field fields IH]; intros properties.
  - cbn [fold_left].
    destruct (getitem property_mapping prop) as [[key kind]|]; [|reflexivity].
    rewrite bool_decide_eq_false_2 by apply not_elem_of_nil. reflexivity.
  - cbn [fold_left]. rewrite IH, getitem_update_field.
    destruct (getitem property_mapping prop) as [[key kind]|]; [|reflexivity].
    destruct (String.eqb_spec key field) as [->|Hne].
    + rewrite (bool_decide_eq_true_2 (field ∈ field :: fields))
        by apply list_elem_of_here.
      destruct (property_value kind (get data field));
        destruct (bool_decide (field ∈ fields)); reflexivity.
    + destruct (decide (key ∈ fields)) as [Hin|Hout].
      * rewrite !bool_decide_eq_true_2; [reflexivity| |assumption].
        by apply list_elem_of_further.
      * rewrite !bool_decide_eq_false_2; [reflexivity| |assumption].
        rewrite elem_of_cons. naive_solver.
Qed.

Lemma update_properties_getitem data prop :
  getitem (update_properties data) prop
  = match getitem property_mapping prop with
    | Some (key, kind) =>
        if bool_decide (key ∈ update_fields)
        then property_value kind (get data key) else None
    | None => None
    end.
Proof.
  unfold update_properties. rewrite getitem_fold_update_fields.
  destruct (getitem property_mapping prop) as [[key kind]|]; [|reflexivity].
  destruct (bool_decide (key ∈ update_fields)); [|reflexivity].
  destruct (property_value kind (get data key)); reflexivity.
Qed.

Lemma unserializable_JObj members :
  Forall serializable_member members → unserializable (JObj members) = None.
Proof.
  induction 1 as [|[k j] members Hj _ IH]; [reflexivity|].
  cbn in *. unfold serializable_member in Hj. cbn in Hj. rewrite Hj. exact IH.
Qed.

Lemma format_properties_serializable data :
  Forall serializable_member (_format_properties data).
Proof.
  unfold _format_properties.
  assert (Hgen : ∀ table properties,
             Forall serializable_member properties →
             Forall serializable_member
               (fold_left (format_entry data) table properties)).
  { induction table as [|[p [key kind]] table IH]; intros properties Hp.
    - assumption.
    - cbn [fold_left]. apply IH. rewrite format_entry_property_value.
      destruct (property_value kind (get data key)) as [j|] eqn:Hj; [|assumption].
      apply Forall_setitem; [|assumption].
      exact (property_value_serializable _ _ _ Hj). }
  apply Hgen. constructor.
Qed.

Lemma update_serializable (d other : list (string * json)) :
  Forall serializable_member d → Forall serializable_member other →
  Forall serializable_member (update d other).
Proof.
  unfold update. intros Hd Ho. revert d Hd.
  induction Ho as [|[k j] other Hj _ IH]; intros d Hd; [assumption|].
  cbn [fold_left]. apply IH. by apply Forall_setitem.
Qed.

Lemma update_properties_serializable data :
  Forall serializable_member (update_properties data).
Proof.
  unfold update_properties.
  assert (Hgen : ∀ fields properties,
             Forall serializable_member properties →
             Forall serializable_member
               (fold_left
                  (fun properties field =>
                     match data !! field with
                     | Some v =>
                         update properties (_format_properties {[ field := v ]})
                     | None => properties
                     end) fields properties)).
  { induction fields as [|field fields IH]; intros properties Hp; [assumption|].
    cbn [fold_left]. apply IH. destruct (data !! field); [|assumption].
    apply update_serializable; [assumption|apply format_properties_serializable]. }
  apply Hgen. constructor.
Qed.

(** ** Effects of the remote page client *)

Section ClientFacts.
Context `{Outside W}.

Lemma client_op_ret {A} (a : A) : client_op (W := W) (ret a).
Proof. intros st. by cbn. Qed.

Lemma client_op_raise {A} e :
  is_Exception e = true → client_op (W := W) (raise (A := A) e).
Proof. intros He st. by cbn. Qed.

Lemma client_op_bind {A B} (c : M W A) (k : A → M W B) :
  client_op c → (∀ a, client_op (k a)) → client_op (bind c k).
Proof.
  intros Hc Hk st. unfold bind.
  destruct (Hc st) as (Hs & He & Hm & Hr).
  destruct (c st) as [[a|e] st1]; cbn in *.
  - destruct (Hk a st1) as (Hs' & He' & Hm' & Hr').
    repeat split; first [assumption | congruence].
  - repeat split; assumption.
Qed.

Lemma client_op_try_except {A} (body : M W A) cls handler :
  client_op body →
  (∀ e, cls e = true → is_Exception e = true → client_op (handler e)) →
  client_op (try_except body cls handler).
Proof.
  intros Hb Hh st. unfold try_except.
  destruct (Hb st) as (Hs & He & Hm & Hr).
  destruct (body st) as [[a|e] st1]; cbn in *.
  - repeat split; assumption.
  - destruct (cls e) eqn:Hcls; cbn.
    + destruct (Hh e Hcls Hr st1) as (Hs' & He' & Hm' & Hr').
      repeat split; first [assumption | congruence].
    + repeat split; assumption.
Qed.

Lemma client_op_logger lvl msg : client_op (W := W) (logger lvl msg).
Proof. intros st. by cbn. Qed.

Lemma client_op_requests_send req : client_op (requests_send req).
Proof.
  intros st. unfold requests_send.
  destruct (unserializable (payload_of req)); [by cbn|].
  destruct (send req (world st)) as [[msg|resp] w]; by cbn.
Qed.

Lemma client_op_raise_for_status r : client_op (W := W) (raise_for_status r).
Proof.
  unfold raise_for_status. destruct (http_error r).
  - by apply client_op_raise.
  - apply client_op_ret.
Qed.

Lemma client_op_response_json r : client_op (W := W) (response_json r).
Proof.
  unfold response_json. destruct (decoded r).
  - by apply client_op_raise.
  - apply client_op_ret.
Qed.

Create HintDb client_ops.
#[local] Hint Resolve client_op_ret client_op_bind client_op_try_except
  client_op_logger client_op_requests_send client_op_raise_for_status
  client_op_response_json : client_ops.

Lemma client_op_check_if_exists self uid : client_op (check_if_exists self uid).
Proof.
  unfold check_if_exists, requests_post.
  apply client_op_try_except.
  - repeat (apply client_op_bind; [auto with client_ops|intros ?]).
    destruct (default [] (results _)); apply client_op_ret.
  - intros e _ He. apply client_op_bind; [apply client_op_logger|intros _].
    by apply client_op_raise.
Qed.

Lemma client_op_update_page self page_id data :
  client_op (update_page self page_id data).
Proof.
  unfold update_page, requests_patch.
  apply client_op_try_except.
  - repeat (apply client_op_bind; [auto with client_ops|intros ?]).
    apply client_op_response_json.
  - intros e _ He. apply client_op_bind; [apply client_op_logger|intros _].
    by apply client_op_raise.
Qed.

Lemma client_op_create_page self data : client_op (create_page self data).
Proof.
  unfold create_page, requests_post.
  apply client_op_try_except.
  - repeat (apply client_op_bind; [auto with client_ops|intros ?]).
    apply client_op_response_json.
  - intros e _ He. apply client_op_bind; [apply client_op_logger|intros _].
    apply client_op_bind; [|intros _; by apply client_op_raise].
    destruct e as [msg [r|]| | | | |]; auto with client_ops.
Qed.

(** What a client call leaves behind, read off a run. *)
Lemma client_op_run {A} (c : M W A) st r st' :
  client_op c → c st = (r, st') →
  summary st' = summary st ∧
  match r with Raise e => is_Exception e = true | Ok _ => True end.
Proof.
  intros Hc Hrun. destruct (Hc st) as (Hs & _ & _ & Hr).
  rewrite Hrun in Hs, Hr. cbn in *. split; assumption.
Qed.
End ClientFacts.

(** ** One row of the sync loop *)

Section SyncFacts.
Context `{Outside W}.

(** The handler of the loop body: count the row as failed. *)
Lemma sync_record_handler (rec : Record) (e : exception) (st : state W) :
  ∃ st',
    (logger ERROR
       [Text ("Error processing record "
              +:+ str (from_option id (PyStr "unknown") (rec !! "uid"))
              +:+ ": " +:+ exc_str e)] ;;
     incr_errors ;;
     append_error_detail {| record := rec; error := exc_str e |}) st
    = (Ok tt, st') ∧
    calls st' = calls st ∧ world st' = world st ∧
    failed_with rec (exc_str e) (summary st) (summary st').
Proof.
  eexists. split; [reflexivity|]. cbn. repeat split.
Qed.

(** A row without a usable uid: logged, counted, nothing sent. *)
Lemma sync_record_falsy_uid self (rec : Record) (st : state W) :
  truthy (get rec "uid") = false →
  ∃ st',
    sync_record self rec st = (Ok tt, st') ∧
    calls st' = calls st ∧ world st' = world st ∧
    failed_with rec "Missing UID" (summary st) (summary st') ∧
    log st' = (log st ++
      [(WARNING, [Text "Skipping record without UID: "; ReprRecord rec])])%list.
Proof.
  intros Huid. unfold sync_record, try_except. rewrite Huid. cbn.
  eexists. split; [reflexivity|]. cbn. repeat split.
Qed.

(** A row whose remote call raises: counted as failed with the message
    of the exception, on top of the state the failing call left. *)
Lemma sync_record_remote_failure self (rec : Record) (st : state W) e st1 :
  remote_failure self rec st e st1 →
  ∃ st',
    sync_record self rec st = (Ok tt, st') ∧
    calls st' = calls st1 ∧ world st' = world st1 ∧
    failed_with rec (exc_str e) (summary st) (summary st').
Proof.
  intros Hfail. unfold sync_record, try_except.
  destruct Hfail as [Huid Hc | page_id st0 Huid Hc Hid Hu | page_id st0 Huid Hc Hid Hu];
    rewrite Huid; cbn [negb]; unfold bind at 1; rewrite Hc.
  - destruct (client_op_run _ _ _ _ (client_op_check_if_exists self _) Hc)
      as [Hs He].
    rewrite He.
    destruct (sync_record_handler rec e st1) as (st' & Hrun & Hcalls & Hw & Hf).
    exists st'. rewrite Hrun, <- Hs. auto.
  - destruct (client_op_run _ _ _ _ (client_op_check_if_exists self _) Hc)
      as [Hs0 _].
    destruct (client_op_run _ _ _ _ (client_op_update_page self _ _) Hu)
      as [Hs He].
    rewrite Hid. unfold bind at 1. cbn [logger].
    unfold bind at 1. cbn [logger snd] in Hu. rewrite Hu, He.
    destruct (sync_record_handler rec e st1) as (st' & Hrun & Hcalls & Hw & Hf).
    exists st'. rewrite Hrun. cbn in Hs. rewrite <- Hs0, <- Hs. auto.
  - destruct (client_op_run _ _ _ _ (client_op_check_if_exists self _) Hc)
      as [Hs0 _].
    destruct (client_op_run _ _ _ _ (client_op_create_page self _) Hu)
      as [Hs He].
    rewrite Hid. unfold bind at 1. cbn [logger].
    unfold bind at 1. cbn [logger snd] in Hu. rewrite Hu, He.
    destruct (sync_record_handler rec e st1) as (st' & Hrun & Hcalls & Hw & Hf).
    exists st'. rewrite Hrun. cbn in Hs. rewrite <- Hs0, <- Hs. auto.
Qed.
End SyncFacts.

Section SyncLoopFacts.
Context `{Outside W}.

(** A row whose page exists and whose update succeeds. *)
Lemma sync_record_updated self (rec : Record) (st : state W) page_id st0 b st1 :
  truthy (get rec "uid") = true →
  check_if_exists self (get rec "uid") st = (Ok page_id, st0) →
  truthy page_id = true →
  update_page self page_id rec
    (logger INFO [Text ("Updating existing record: " +:+ str (get rec "uid"))] st0).2
  = (Ok b, st1) →
  sync_record self rec st
  = (Ok tt,
     with_summary
       {| created := created (summary st); updated := updated (summary st) + 1;
          errors := errors (summary st);
          error_details := error_details (summary st) |} st1).
Proof.
  intros Huid Hc Hid Hu.
  destruct (client_op_run _ _ _ _ (client_op_check_if_exists self _) Hc) as [Hs0 _].
  destruct (client_op_run _ _ _ _ (client_op_update_page self _ _) Hu) as [Hs _].
  cbn in Hs. unfold sync_record, try_except. rewrite Huid. cbn [negb].
  unfold bind at 1. rewrite Hc, Hid. unfold bind at 1. cbn [logger].
  unfold bind at 1. cbn [logger snd] in Hu. rewrite Hu. cbn.
  rewrite Hs, Hs0. reflexivity.
Qed.

(** A row with no page yet and whose create succeeds. *)
Lemma sync_record_created self (rec : Record) (st : state W) page_id st0 b st1 :
  truthy (get rec "uid") = true →
  check_if_exists self (get rec "uid") st = (Ok page_id, st0) →
  truthy page_id = false →
  create_page self rec
    (logger INFO [Text ("Creating new record: " +:+ str (get rec "uid"))] st0).2
  = (Ok b, st1) →
  sync_record self rec st
  = (Ok tt,
     with_summary
       {| created := created (summary st) + 1; updated := updated (summary st);
          errors := errors (summary st);
          error_details := error_details (summary st) |} st1).
Proof.
  intros Huid Hc Hid Hu.
  destruct (client_op_run _ _ _ _ (client_op_check_if_exists self _) Hc) as [Hs0 _].
  destruct (client_op_run _ _ _ _ (client_op_create_page self _) Hu) as [Hs _].
  cbn in Hs. unfold sync_record, try_except. rewrite Huid. cbn [negb].
  unfold bind at 1. rewrite Hc, Hid. unfold bind at 1. cbn [logger].
  unfold bind at 1. cbn [logger snd] in Hu. rewrite Hu. cbn.
  rewrite Hs, Hs0. reflexivity.
Qed.

Lemma failed_with_one_more rec msg s s' : failed_with rec msg s s' → one_more s s'.
Proof. intros (Hc & Hu & He & Hd). right. right. eauto 6. Qed.

(** Every row ends in exactly one counter being incremented. *)
Lemma sync_record_one_more self (rec : Record) (st : state W) :
  ∃ st', sync_record self rec st = (Ok tt, st') ∧
         one_more (summary st) (summary st').
Proof.
  destruct (truthy (get rec "uid")) eqn:Huid.
  2:{ destruct (sync_record_falsy_uid self rec st Huid) as (st' & Hr & _ & _ & Hf & _).
      eauto using failed_with_one_more. }
  assert (Hfailure : ∀ e st1, remote_failure self rec st e st1 →
            ∃ st', sync_record self rec st = (Ok tt, st') ∧
                   one_more (summary st) (summary st')).
  { intros e st1 Hf.
    destruct (sync_record_remote_failure self rec st e st1 Hf)
      as (st' & Hr & _ & _ & Hfw).
    eauto using failed_with_one_more. }
  destruct (check_if_exists self (get rec "uid") st) as [[page_id|e] st0] eqn:Hc.
  2:{ eapply Hfailure. by apply exists_fails. }
  destruct (truthy page_id) eqn:Hid.
  - destruct (update_page self page_id rec
                (logger INFO [Text ("Updating existing record: "
                                    +:+ str (get rec "uid"))] st0).2)
      as [[b|e] st1] eqn:Hu.
    + eexists. split; [by eapply sync_record_updated|]. cbn. right. left. auto.
    + eapply Hfailure. by eapply update_fails.
  - destruct (create_page self rec
                (logger INFO [Text ("Creating new record: "
                                    +:+ str (get rec "uid"))] st0).2)
      as [[b|e] st1] eqn:Hu.
    + eexists. split; [by eapply sync_record_created|]. cbn. left. auto.
    + eapply Hfailure. by eapply create_fails.
Qed.

(** The loop invariant: the counters grow by the number of rows handled,
    and [error_details] grows with [errors]. *)
Lemma for_each_sync_record self (records : list Record) (st : state W) :
  ∃ st',
    for_each records (sync_record self) st = (Ok tt, st') ∧
    created (summary st') + updated (summary st') + errors (summary st')
    = created (summary st) + updated (summary st) + errors (summary st)
      + length records ∧
    length (error_details (summary st')) + errors (summary st)
    = length (error_details (summary st)) + errors (summary st').
Proof.
  revert st. induction records as [|rec records IH]; intros st.
  - exists st. cbn. split; [reflexivity|]. lia.
  - destruct (sync_record_one_more self rec st) as (st1 & Hrec & Hone).
    destruct (IH st1) as (st' & Hrest & Hsum & Hlen).
    exists st'. cbn [for_each]. unfold bind. rewrite Hrec.
    split; [exact Hrest|]. cbn [length].
    destruct Hone as [(Hc & Hu & He & Hd)|[(Hc & Hu & He & Hd)|(Hc & Hu & He & d & Hd)]];
      rewrite ?Hd, ?length_app in *; cbn [length] in *; lia.
Qed.

(** The whole of [sync_from_database]: it returns the summary it built. *)
Lemma sync_from_database_total self (records : list Record) (st : state W) :
  ∃ st', sync_from_database self records st = (Ok (summary st'), st') ∧
         created (summary st') + updated (summary st') + errors (summary st')
         = length records ∧
         length (error_details (summary st')) = errors (summary st').
Proof.
  unfold sync_from_database.
  destruct (for_each_sync_record self records (with_summary fresh_summary st))
    as (st1 & Hloop & Hsum & Hlen).
  unfold bind at 1. cbn [set_summary]. unfold bind at 1. rewrite Hloop.
  cbn. eexists. split; [reflexivity|]. cbn in *. lia.
Qed.
End SyncLoopFacts.

(** ** Cutting a run at one row *)

Section RunFacts.
Context `{Outside W}.

Lemma for_each_app {A} (xs ys : list A) (body : A → M W unit) (st st1 : state W) :
  for_each xs body st = (Ok tt, st1) →
  for_each (xs ++ ys) body st = for_each ys body st1.
Proof.
  revert st. induction xs as [|x xs IH]; intros st Hxs.
  - cbn in Hxs. by injection Hxs as ->.
  - cbn [for_each app] in *. unfold bind in *.
    destruct (body x st) as [[[]|e] s]; [by apply IH|discriminate].
Qed.

(** The loop never shortens [error_details]. *)
Lemma for_each_sync_record_grows self (records : list Record) (st : state W) :
  ∃ st' later,
    for_each records (sync_record self) st = (Ok tt, st') ∧
    error_details (summary st') = (error_details (summary st) ++ later)%list.
Proof.
  revert st. induction records as [|rec records IH]; intros st.
  - exists st, []. by rewrite app_nil_r.
  - destruct (sync_record_one_more self rec st) as (st1 & Hrec & Hone).
    destruct (IH st1) as (st' & later & Hrest & Hgrow).
    cbn [for_each]. unfold bind. rewrite Hrec.
    destruct Hone as [(_ & _ & _ & Hd)|[(_ & _ & _ & Hd)|(_ & _ & _ & d & Hd)]].
    + exists st', later. by rewrite Hgrow, Hd.
    + exists st', later. by rewrite Hgrow, Hd.
    + exists st', (d :: later). rewrite Hgrow, Hd, <- app_assoc. by split.
Qed.

(** Once the loop has handled a row, the run goes on to its end and
    returns what the loop has built. *)
Lemma sync_run_from self before (rec : Record) after (st st1 st2 : state W) :
  for_each before (sync_record self) (with_summary fresh_summary st)
  = (Ok tt, st1) →
  sync_record self rec st1 = (Ok tt, st2) →
  ∃ st', sync_run self before rec after st st1 st2 st'.
Proof.
  intros Hbefore Hrec.
  destruct (for_each_sync_record_grows self after st2)
    as (st3 & later & Hafter & Hgrow).
  assert (Hloop : for_each (before ++ rec :: after) (sync_record self)
                    (with_summary fresh_summary st) = (Ok tt, st3)).
  { rewrite (for_each_app _ _ _ _ _ Hbefore). cbn [for_each]. unfold bind.
    rewrite Hrec. exact Hafter. }
  destruct (for_each_sync_record self (before ++ rec :: after)
              (with_summary fresh_summary st)) as (st3' & Hloop' & Hsum & _).
  rewrite Hloop in Hloop'. injection Hloop' as <-.
  eexists. unfold sync_run. split; [exact Hbefore|]. split; [exact Hrec|].
  exists st3, later. split; [exact Hafter|]. split; [exact Hgrow|].
  split.
  - unfold sync_from_database. unfold bind at 1. cbn [set_summary].
    unfold bind at 1. rewrite Hloop. reflexivity.
  - cbn in *. repeat split. lia.
Qed.

(** Every row of the input is reached. *)
Lemma sync_run_reaches self before (rec : Record) after (st : state W) :
  ∃ st1 st2 st', sync_run self before rec after st st1 st2 st'.
Proof.
  destruct (for_each_sync_record self before (with_summary fresh_summary st))
    as (st1 & Hbefore & _).
  destruct (sync_record_one_more self rec st1) as (st2 & Hrec & _).
  destruct (sync_run_from self before rec after st st1 st2 Hbefore Hrec)
    as (st' & Hrun).
  eauto.
Qed.

Lemma sync_run_returns self before (rec : Record) after
    (st st1 st2 st' : state W) :
  sync_run self before rec after st st1 st2 st' →
  sync_from_database self (before ++ rec :: after) st = (Ok (summary st'), st').
Proof. by intros (_ & _ & st3 & later & _ & _ & Hsync & _). Qed.

(** What a row leaves in [error_details] is in the returned summary. *)
Lemma sync_run_keeps_detail self before (rec : Record) after
    (st st1 st2 st' : state W) msg :
  sync_run self before rec after st st1 st2 st' →
  failed_with rec msg (summary st1) (summary st2) →
  {| record := rec; error := msg |} ∈ error_details (summary st').
Proof.
  intros (_ & _ & st3 & later & _ & Hgrow & _ & Hs & _) (_ & _ & _ & Hd).
  rewrite Hs, Hgrow, Hd. set_solver.
Qed.

(** The row without a usable uid, within a run. *)
Lemma sync_run_rejects self before (rec : Record) after (st : state W) :
  truthy (get rec "uid") = false →
  ∃ st1 st2 st',
    sync_from_database self (before ++ rec :: after) st
    = (Ok (summary st'), st') ∧
    sync_run self before rec after st st1 st2 st' ∧
    rejected self rec st1 st2 ∧
    {| record := rec; error := "Missing UID" |} ∈ error_details (summary st').
Proof.
  intros Hfalsy.
  destruct (for_each_sync_record self before (with_summary fresh_summary st))
    as (st1 & Hbefore & _).
  destruct (sync_record_falsy_uid self rec st1 Hfalsy)
    as (st2 & Hrec & Hcalls & Hworld & Hfailed & _).
  destruct (sync_run_from self before rec after st st1 st2 Hbefore Hrec)
    as (st' & Hrun).
  exists st1, st2, st'. split; [by eapply sync_run_returns|].
  split; [exact Hrun|]. split.
  - unfold rejected. auto.
  - by eapply sync_run_keeps_detail.
Qed.
End RunFacts.

(** * The claims *)

(** ** The sync loop *)

(** C1. Every row handled by the loop of [sync_from_database] ends with
    exactly one of [created], [updated], [errors] one higher, so the
    returned summary has [created + updated + errors] equal to the number
    of rows, and as many entries in [error_details] as [errors] counts. *)
Theorem sync_from_database_counts `{Outside W} self (records : list Record)
    (st : state W) :
  (∀ rec st0, ∃ st1, sync_record self rec st0 = (Ok tt, st1) ∧
                     one_more (summary st0) (summary st1)) ∧
  ∃ st', sync_from_database self records st = (Ok (summary st'), st') ∧
         created (summary st') + updated (summary st') + errors (summary st')
         = length records ∧
         length (error_details (summary st')) = errors (summary st').
Proof.
  split; [intros rec st0; apply sync_record_one_more|].
  apply sync_from_database_total.
Qed.

(** C5. Wherever a row whose [uid] is null or missing stands in the
    input of [sync_from_database], handling it makes no remote call: it
    is counted in [errors] once and recorded in [error_details] with the
    message ["Missing UID"], [created] and [updated] stay as they were,
    and the entry is in the summary that [sync_from_database] returns. *)
Theorem sync_from_database_missing_uid `{Outside W} self before (rec : Record)
    after (st : state W) :
  rec !! "uid" = None ∨ rec !! "uid" = Some PyNone →
  ∃ st1 st2 st',
    sync_from_database self (before ++ rec :: after) st
    = (Ok (summary st'), st') ∧
    sync_run self before rec after st st1 st2 st' ∧
    rejected self rec st1 st2 ∧
    {| record := rec; error := "Missing UID" |} ∈ error_details (summary st').
Proof.
  intros Huid. apply sync_run_rejects.
  unfold get. destruct Huid as [-> | ->]; reflexivity.
Qed.

(** C10. A row whose [uid] is the empty string is handled by
    [sync_from_database] exactly like a row without one: no remote call,
    one more error, the message ["Missing UID"]; the test is the
    falsiness of the value. *)
Theorem sync_from_database_empty_uid `{Outside W} self before (rec : Record)
    after (st : state W) :
  (rec !! "uid" = Some (PyStr "") →
   ∃ st1 st2 st',
     sync_from_database self (before ++ rec :: after) st
     = (Ok (summary st'), st') ∧
     sync_run self before rec after st st1 st2 st' ∧
     rejected self rec st1 st2 ∧
     {| record := rec; error := "Missing UID" |} ∈ error_details (summary st')) ∧
  (truthy (get rec "uid") = false →
   ∃ st1 st2 st',
     sync_from_database self (before ++ rec :: after) st
     = (Ok (summary st'), st') ∧
     sync_run self before rec after st st1 st2 st' ∧
     rejected self rec st1 st2 ∧
     {| record := rec; error := "Missing UID" |} ∈ error_details (summary st')).
Proof.
  split; [|apply sync_run_rejects].
  intros Huid. apply sync_run_rejects. unfold get. rewrite Huid. reflexivity.
Qed.

(** C6. When, in a run of [sync_from_database], the existence check, the
    create or the update raises for a row, the row is counted in
    [errors] once and recorded with the message of the exception,
    [created] and [updated] keep what the earlier rows gave them, and
    the loop goes on with the rows that follow, to the end: the summary
    returned counts every row of the input and holds the entry. *)
Theorem sync_from_database_failure_is_counted `{Outside W} self before
    (rec : Record) after (st st1 : state W) e failed :
  for_each before (sync_record self) (with_summary fresh_summary st)
  = (Ok tt, st1) →
  remote_failure self rec st1 e failed →
  ∃ st2 st',
    sync_from_database self (before ++ rec :: after) st
    = (Ok (summary st'), st') ∧
    sync_run self before rec after st st1 st2 st' ∧
    failed_with rec (exc_str e) (summary st1) (summary st2) ∧
    {| record := rec; error := exc_str e |} ∈ error_details (summary st').
Proof.
  intros Hbefore Hfail.
  destruct (sync_record_remote_failure self rec st1 e failed Hfail)
    as (st2 & Hrec & _ & _ & Hfailed).
  destruct (sync_run_from self before rec after st st1 st2 Hbefore Hrec)
    as (st' & Hrun).
  exists st2, st'. split; [by eapply sync_run_returns|].
  split; [exact Hrun|]. split; [exact Hfailed|].
  by eapply sync_run_keeps_detail.
Qed.

Lemma sync_from_database_missing_uid_witness :
  ∃ st',
    sync_from_database (H := directory) sample_client
      ([ {[ "uid" := PyStr "u1" ]} ] ++ {[ "name" := PyStr "Ada" ]}
         :: [ {[ "uid" := PyStr "u2" ]} ])
      (configured ["u1"] [])
    = (Ok (summary st'), st') ∧
    {| record := {[ "name" := PyStr "Ada" ]}; error := "Missing UID" |}
    ∈ error_details (summary st').
Proof.
  destruct (sync_from_database_missing_uid (H := directory) sample_client
              [ {[ "uid" := PyStr "u1" ]} ] {[ "name" := PyStr "Ada" ]}
              [ {[ "uid" := PyStr "u2" ]} ] (configured ["u1"] []))
    as (st1 & st2 & st' & Hsync & _ & _ & Hin).
  - left. reflexivity.
  - exists st'. split; assumption.
Defined.

Lemma sync_from_database_empty_uid_witness :
  ∃ st',
    sync_from_database (H := directory) sample_client
      ([ {[ "uid" := PyStr "u1" ]} ] ++ {[ "uid" := PyStr "" ]}
         :: [ {[ "uid" := PyStr "u2" ]} ])
      (configured ["u1"] [])
    = (Ok (summary st'), st') ∧
    {| record := {[ "uid" := PyStr "" ]}; error := "Missing UID" |}
    ∈ error_details (summary st').
Proof.
  destruct (proj1 (sync_from_database_empty_uid (H := directory) sample_client
                     [ {[ "uid" := PyStr "u1" ]} ] {[ "uid" := PyStr "" ]}
                     [ {[ "uid" := PyStr "u2" ]} ] (configured ["u1"] [])))
    as (st1 & st2 & st' & Hsync & _ & _ & Hin).
  - reflexivity.
  - exists st'. split; assumption.
Defined.

Lemma sync_from_database_failure_is_counted_witness :
  ∃ st',
    sync_from_database (H := offline) sample_client
      ([] ++ {[ "uid" := PyStr "u1" ]} :: [ {[ "name" := PyStr "Ada" ]} ])
      (boot ∅ ∅ tt)
    = (Ok (summary st'), st') ∧
    {| record := {[ "uid" := PyStr "u1" ]}; error := "Connection refused" |}
    ∈ error_details (summary st') ∧
    errors (summary st') = 2.
Proof.
  destruct (sync_from_database_failure_is_counted (H := offline) sample_client
              [] {[ "uid" := PyStr "u1" ]} [ {[ "name" := PyStr "Ada" ]} ]
              (boot ∅ ∅ tt) (with_summary fresh_summary (boot ∅ ∅ tt))
              (RequestException "Connection refused" None)
              (check_if_exists (H := offline) sample_client (PyStr "u1")
                 (with_summary fresh_summary (boot ∅ ∅ tt))).2)
    as (st2 & st' & Hsync & _ & _ & Hin).
  - reflexivity.
  - apply exists_fails; [reflexivity|]. vm_compute. reflexivity.
  - exists st'. split; [exact Hsync|]. split; [exact Hin|].
    assert (Hrun' : sync_from_database (H := offline) sample_client
                      ([] ++ {[ "uid" := PyStr "u1" ]}
                         :: [ {[ "name" := PyStr "Ada" ]} ]) (boot ∅ ∅ tt)
                    = (Ok (summary st'), st')) by exact Hsync.
    assert (Herr : errors
                     (summary
                        (sync_from_database (H := offline) sample_client
                           ([] ++ {[ "uid" := PyStr "u1" ]}
                              :: [ {[ "name" := PyStr "Ada" ]} ])
                           (boot ∅ ∅ tt)).2) = 2)
      by (vm_compute; reflexivity).
    rewrite Hrun' in Herr. exact Herr.
Defined.

(** ** The property formatter *)

(** C2. Formatting the row [{status: "Active"}] gives exactly
    [{"Status": {"select": {"name": "Active"}}}], and formatting
    [{uid: "123"}] gives exactly
    [{"UID": {"rich_text": [{"text": {"content": "123"}}]}}]. *)
Theorem format_properties_examples :
  _format_properties {[ "status" := PyStr "Active" ]}
  = [("Status", JObj [("select", JObj [("name", JStr "Active")])])]
  ∧ _format_properties {[ "uid" := PyStr "123" ]}
    = [("UID",
        JObj [("rich_text",
               JArr [JObj [("text", JObj [("content", JStr "123")])]])])].
Proof. split; vm_compute; reflexivity. Qed.

(** C3. The formatter leaves out every mapped property whose field is
    null or absent in the row, and never emits a null in its place; for
    the three date fields it also leaves the property out when the value
    is empty, and emits [{date: {start: str(value)}}] for a value that is
    not. *)
Theorem format_properties_omits (data : Record) :
  (∀ prop key kind,
     (prop, (key, kind)) ∈ property_mapping →
     data !! key = None ∨ data !! key = Some PyNone →
     prop ∉ keys (_format_properties data)) ∧
  (∀ prop j,
     getitem (_format_properties data) prop = Some j → j ≠ JVal PyNone) ∧
  (∀ prop key,
     (prop, key) ∈ [ ("Review Date", "review_date");
                     ("Next Follow Up", "next_follow_up");
                     ("Date Added", "date_added") ] →
     (truthy (get data key) = false →
      prop ∉ keys (_format_properties data)) ∧
     (truthy (get data key) = true →
      getitem (_format_properties data) prop
      = Some (JObj [("date", JObj [("start", JStr (str (get data key)))])]))).
Proof.
  split; [|split].
  - intros prop key kind Hin Hnull.
    apply getitem_None_keys. rewrite format_properties_getitem.
    apply property_mapping_getitem in Hin. rewrite Hin.
    unfold get. destruct Hnull as [-> | ->]; reflexivity.
  - intros prop j. rewrite format_properties_getitem.
    destruct (getitem property_mapping prop) as [[key kind]|]; [|discriminate].
    intros Hj. by apply property_value_not_null in Hj as [_ Hj].
  - intros prop key Hin.
    assert (Hrow : getitem property_mapping prop = Some (key, "date")).
    { repeat (apply elem_of_cons in Hin as [[= -> ->]|Hin]; [reflexivity|]).
      by apply elem_of_nil in Hin. }
    split; intros Htruthy.
    + apply getitem_None_keys. rewrite format_properties_getitem, Hrow.
      unfold property_value. destruct (is_None (get data key)); [reflexivity|].
      cbn. rewrite Htruthy. reflexivity.
    + rewrite format_properties_getitem, Hrow.
      unfold property_value.
      destruct (get data key) eqn:Hv; try discriminate; cbn in *;
        rewrite ?Htruthy; reflexivity.
Qed.

Lemma format_properties_omits_witness :
  ("UID" ∉ keys (_format_properties {[ "uid" := PyNone; "review_date" := PyStr "" ]})) ∧
  ("Review Date" ∉ keys (_format_properties {[ "uid" := PyNone; "review_date" := PyStr "" ]})) ∧
  getitem (_format_properties {[ "date_added" := PyDate 2024 3 9 ]}) "Date Added"
  = Some (JObj [("date", JObj [("start", JStr "2024-03-09")])]).
Proof.
  split; [|split].
  - apply (proj1 (format_properties_omits _) "UID" "uid" "rich_text").
    + apply property_mapping_getitem. reflexivity.
    + right. reflexivity.
  - apply (proj2 (proj2 (format_properties_omits _)) "Review Date" "review_date").
    + apply list_elem_of_here.
    + reflexivity.
  - assert (Hin : ("Date Added", "date_added")
                  ∈ [ ("Review Date", "review_date");
                      ("Next Follow Up", "next_follow_up");
                      ("Date Added", "date_added") ]).
    { apply list_elem_of_further, list_elem_of_further, list_elem_of_here. }
    exact (proj2 (proj2 (proj2
             (format_properties_omits {[ "date_added" := PyDate 2024 3 9 ]}))
             "Date Added" "date_added" Hin) eq_refl).
Defined.


Lemma update_payload_serializable data :
  unserializable (JObj [("properties", JObj (update_properties data))]) = None.
Proof.
  apply unserializable_JObj. repeat constructor.
  unfold serializable_member. cbn [snd].
  apply unserializable_JObj, update_properties_serializable.
Qed.

(** A request whose payload serialises is sent, whatever comes back. *)
Lemma requests_send_calls `{Outside W} req (st : state W) :
  unserializable (payload_of req) = None →
  calls (requests_send req st).2 = (calls st ++ [req])%list.
Proof.
  intros Hser. unfold requests_send. rewrite Hser.
  destruct (send req (world st)) as [[msg|resp] w]; reflexivity.
Qed.

Lemma patch_calls `{Outside W} url hdrs payload (info failure : string)
    (st : state W) :
  unserializable payload = None →
  calls
    (try_except
       (response <- requests_patch url hdrs payload ;;
        raise_for_status response ;;
        logger INFO [Text info] ;;
        response_json response)
       is_RequestException
       (fun e => logger ERROR [Text (failure +:+ exc_str e)] ;; raise e) st).2
  = (calls st ++ [PATCH url hdrs payload])%list.
Proof.
  intros Hser.
  pose proof (requests_send_calls (PATCH url hdrs payload) st Hser) as Hsent.
  unfold try_except, requests_patch. unfold bind at 1.
  destruct (requests_send (PATCH url hdrs payload) st) as [[resp|e] st1].
  - cbn [snd] in Hsent. unfold bind, raise_for_status, response_json, logger, raise, ret.
    destruct (http_error resp); [exact Hsent|].
    destruct (decoded resp); exact Hsent.
  - cbn [snd] in Hsent. destruct (is_RequestException e); exact Hsent.
Qed.

Lemma update_page_calls `{Outside W} self page_id (data : Record) (st : state W) :
  calls (update_page self page_id data st).2
  = (calls st ++
       [PATCH (base_url self +:+ "/pages/" +:+ str page_id) (headers self)
          (JObj [("properties", JObj (update_properties data))])])%list.
Proof.
  unfold update_page. apply patch_calls, update_payload_serializable.
Qed.

(** C4. Whatever the page and the row, the payload that [update_page]
    sends holds only properties of the allow-listed fields [status],
    [platform], [socials], [reviewer_name], [review_date] and
    [next_follow_up], each as the formatter renders it; ["UID"],
    ["Name"] and ["Date Added"] are never in it. *)
Theorem update_page_payload_allow_listed `{Outside W} self page_id
    (data : Record) (st : state W) :
  ∃ properties,
    calls (update_page self page_id data st).2
    = (calls st ++
         [PATCH (base_url self +:+ "/pages/" +:+ str page_id) (headers self)
            (JObj [("properties", JObj properties)])])%list ∧
    (∀ prop, prop ∈ keys properties →
       ∃ field kind,
         (prop, (field, kind)) ∈ property_mapping ∧
         field ∈ update_fields ∧
         getitem properties prop = getitem (_format_properties data) prop) ∧
    ("UID" ∉ keys properties) ∧ ("Name" ∉ keys properties) ∧
    ("Date Added" ∉ keys properties).
Proof.
  exists (update_properties data).
  split; [apply update_page_calls|]. split.
  - intros prop Hin. apply keys_getitem in Hin as [j Hj].
    rewrite format_properties_getitem.
    rewrite update_properties_getitem in Hj |- *.
    destruct (getitem property_mapping prop) as [[field kind]|] eqn:Hrow;
      [|discriminate].
    exists field, kind. split; [by apply property_mapping_getitem|].
    destruct (bool_decide (field ∈ update_fields)) eqn:Hallowed; [|discriminate].
    split; [by apply bool_decide_eq_true in Hallowed | reflexivity].
  - repeat split; apply getitem_None_keys; rewrite update_properties_getitem;
      reflexivity.
Qed.

Lemma update_page_payload_allow_listed_witness :
  ∃ properties,
    calls (update_page (H := offline) sample_client (PyStr "page-1")
             {[ "uid" := PyStr "u1"; "name" := PyStr "Ada";
                "status" := PyStr "Active" ]} (boot ∅ ∅ tt)).2
    = [PATCH ("https://api.notion.com/v1" +:+ "/pages/" +:+ "page-1")
         (headers sample_client)
         (JObj [("properties", JObj properties)])] ∧
    ("UID" ∉ keys properties) ∧ ("Name" ∉ keys properties).
Proof.
  destruct (update_page_payload_allow_listed (H := offline) sample_client
              (PyStr "page-1")
              {[ "uid" := PyStr "u1"; "name" := PyStr "Ada";
                 "status" := PyStr "Active" ]} (boot ∅ ∅ tt))
    as (properties & Hcalls & _ & Huid & Hname & _).
  exists properties. split; [exact Hcalls|]. split; assumption.
Defined.

(** ** The connector factory *)

Section FactoryFacts.
Context {W : Type}.

Lemma get_connector_run (db_type : value) (st : state W) :
  get_connector db_type st
  = (let selector :=
       py_or db_type
         (from_option PyStr (PyStr "postgresql") (environ st !! "DB_TYPE")) in
     match connectors_get selector with
     | Some connector_class => Ok connector_class
     | None => Raise (ValueError ("Unsupported database type: " +:+ str selector))
     end, st).
Proof.
  unfold get_connector, bind, getenv. cbn zeta.
  destruct (connectors_get _); reflexivity.
Qed.

Lemma connectors_get_unknown name :
  name ∉ keys connectors → connectors_get (PyStr name) = None.
Proof. intros Hout. unfold connectors_get. by apply getitem_None_keys. Qed.
End FactoryFacts.

(** C7, as stated, fails on the empty selector: it is none of the four
    names, and yet the factory raises nothing and returns a connector,
    the one the [DB_TYPE] setting names or the PostgreSQL one. *)
Lemma get_connector_empty_selector :
  ("" ∉ ["postgresql"; "mysql"; "mongodb"; "sqlite"]) ∧
  get_connector (PyStr "") (boot (W := unit) ∅ ∅ tt)
  = (Ok PostgreSQLConnector, boot ∅ ∅ tt) ∧
  get_connector (PyStr "") (boot (W := unit) {[ "DB_TYPE" := "mysql" ]} ∅ tt)
  = (Ok MySQLConnector, boot {[ "DB_TYPE" := "mysql" ]} ∅ tt) ∧
  ¬ (∀ name (st : state unit),
       name ∉ ["postgresql"; "mysql"; "mongodb"; "sqlite"] →
       ∃ e, get_connector (PyStr name) st = (Raise e, st)).
Proof.
  assert (Hout : "" ∉ ["postgresql"; "mysql"; "mongodb"; "sqlite"]).
  { apply (bool_decide_unpack _). vm_compute. exact I. }
  assert (Hrun : get_connector (PyStr "") (boot (W := unit) ∅ ∅ tt)
                 = (Ok PostgreSQLConnector, boot ∅ ∅ tt))
    by (vm_compute; reflexivity).
  split; [exact Hout|]. split; [exact Hrun|]. split; [vm_compute; reflexivity|].
  intros Hraises. destruct (Hraises "" (boot ∅ ∅ tt) Hout) as [e He].
  rewrite Hrun in He. discriminate.
Qed.

(** C7, amended. Given one of the selectors ["postgresql"], ["mysql"],
    ["mongodb"], ["sqlite"], the factory returns the connector of that
    name.  Given no selector, or an empty one, it takes the selector
    from the [DB_TYPE] setting, and when there is no such setting it
    returns the PostgreSQL connector.  Any other selector that is not
    empty, whether passed or taken from the setting, and an empty
    setting too, raises [ValueError] and no connector is returned. *)
Theorem get_connector_factory {W} (st : state W) :
  (get_connector (PyStr "postgresql") st = (Ok PostgreSQLConnector, st) ∧
   get_connector (PyStr "mysql") st = (Ok MySQLConnector, st) ∧
   get_connector (PyStr "mongodb") st = (Ok MongoDBConnector, st) ∧
   get_connector (PyStr "sqlite") st = (Ok SQLiteConnector, st)) ∧
  (get_connector PyNone st
   = get_connector
       (from_option PyStr (PyStr "postgresql") (environ st !! "DB_TYPE")) st ∧
   get_connector (PyStr "") st = get_connector PyNone st ∧
   (environ st !! "DB_TYPE" = None →
    get_connector PyNone st = (Ok PostgreSQLConnector, st))) ∧
  (∀ name,
     name ∉ ["postgresql"; "mysql"; "mongodb"; "sqlite"] →
     (name ≠ "" →
      get_connector (PyStr name) st
      = (Raise (ValueError ("Unsupported database type: " +:+ name)), st)) ∧
     (environ st !! "DB_TYPE" = Some name →
      get_connector PyNone st
      = (Raise (ValueError ("Unsupported database type: " +:+ name)), st))).
Proof.
  split; [|split].
  - rewrite !get_connector_run. repeat split.
  - split; [|split].
    + rewrite !get_connector_run. cbn [py_or truthy].
      destruct (environ st !! "DB_TYPE") as [name|]; cbn [from_option]; [|reflexivity].
      unfold py_or. destruct (truthy (PyStr name)); reflexivity.
    + rewrite !get_connector_run. reflexivity.
    + intros Hunset. rewrite get_connector_run, Hunset. reflexivity.
  - intros name Hout.
    pose proof (connectors_get_unknown name Hout) as Hnone.
    split.
    + intros Hne. rewrite get_connector_run. unfold py_or. cbn [truthy].
      destruct (String.eqb_spec name "") as [?|_]; [contradiction|].
      cbn [negb]. cbv zeta. rewrite Hnone. reflexivity.
    + intros Hset. rewrite get_connector_run, Hset. cbn [py_or truthy from_option].
      cbv zeta. rewrite Hnone. reflexivity.
Qed.

Lemma get_connector_factory_witness :
  get_connector PyNone (boot ∅ ∅ tt) = (Ok PostgreSQLConnector, boot ∅ ∅ tt) ∧
  get_connector (PyStr "oracle") (boot ∅ ∅ tt)
  = (Raise (ValueError "Unsupported database type: oracle"), boot ∅ ∅ tt).
Proof.
  split.
  - apply (proj2 (proj2 (proj1 (proj2 (get_connector_factory (boot ∅ ∅ tt)))))).
    reflexivity.
  - assert (Hout : "oracle" ∉ ["postgresql"; "mysql"; "mongodb"; "sqlite"]).
    { apply (bool_decide_unpack _). vm_compute. exact I. }
    apply (proj1 (proj2 (proj2 (get_connector_factory (boot ∅ ∅ tt))) "oracle" Hout)).
    discriminate.
Defined.

(** ** Missing drivers *)

Section DriverFacts.
Context `{Outside W}.

Lemma for_each_import_missing (names : list string) (st : state W) :
  (∃ name, name ∈ names ∧ name ∉ modules st) →
  ∃ msg, for_each names import st = (Raise (ImportError msg), st).
Proof.
  induction names as [|name names IH]; intros (m & Hin & Hout).
  - by apply elem_of_nil in Hin.
  - cbn [for_each]. unfold bind, import at 1.
    destruct (decide (name ∈ modules st)) as [Hhere|Hgone].
    + apply IH. exists m. split; [|assumption].
      apply elem_of_cons in Hin as [->|Hin]; [contradiction|assumption].
    + eauto.
Qed.

(** The guarded import logs the hint and reports failure. *)
Lemma import_driver_missing (names : list string) hint (st : state W) :
  (∃ name, name ∈ names ∧ name ∉ modules st) →
  import_driver names hint st
  = (Ok false, with_log (log st ++ [(ERROR, [Text hint])]) st).
Proof.
  intros Hmissing.
  destruct (for_each_import_missing names st Hmissing) as [msg Hrun].
  unfold import_driver, try_except. unfold bind at 1. rewrite Hrun.
  reflexivity.
Qed.
End DriverFacts.

(** C8, as stated, fails on the SQLite connector: without the [sqlite3]
    module its [fetch_records] raises [ImportError]; it neither logs nor
    returns an empty list. *)
Lemma sqlite_driver_unavailable_raises :
  driver_unavailable SQLiteConnector without_sqlite3 ∧
  fetch_records (H := offline) SQLiteConnector without_sqlite3
  = (Raise (ImportError "No module named 'sqlite3'"), without_sqlite3) ∧
  ¬ degrades (H := offline) SQLiteConnector without_sqlite3.
Proof.
  assert (Hrun : fetch_records (H := offline) SQLiteConnector without_sqlite3
                 = (Raise (ImportError "No module named 'sqlite3'"),
                    without_sqlite3)).
  { vm_compute. reflexivity. }
  split; [|split].
  - exists "sqlite3". split; [apply list_elem_of_here|].
    apply (bool_decide_unpack _). vm_compute. exact I.
  - exact Hrun.
  - intros [hint Hsoft]. rewrite Hrun in Hsoft. discriminate.
Qed.

(** C8, amended. When their driver cannot be imported, the PostgreSQL,
    MySQL and MongoDB connectors log an error and return an empty list
    without raising, and without reaching for the database.  The SQLite
    connector imports the standard library's [sqlite3] unguarded: when
    that import fails, the [ImportError] is raised to the caller. *)
Theorem fetch_records_driver_unavailable `{Outside W}
    (connector : DatabaseConnector) (st : state W) :
  driver_unavailable connector st →
  match connector with
  | SQLiteConnector =>
      fetch_records connector st
      = (Raise (ImportError "No module named 'sqlite3'"), st)
  | _ => degrades connector st
  end.
Proof.
  intros Hmissing. unfold degrades.
  destruct connector; cbn [fetch_records].
  - eexists. unfold PostgreSQLConnector_fetch_records. unfold bind at 1.
    rewrite (import_driver_missing _ _ _ Hmissing). reflexivity.
  - eexists. unfold MySQLConnector_fetch_records. unfold bind at 1.
    rewrite (import_driver_missing _ _ _ Hmissing). reflexivity.
  - eexists. unfold MongoDBConnector_fetch_records. unfold bind at 1.
    rewrite (import_driver_missing _ _ _ Hmissing). reflexivity.
  - destruct Hmissing as (name & Hin & Hout).
    apply list_elem_of_singleton in Hin as ->.
    unfold SQLiteConnector_fetch_records. unfold bind at 1. unfold import.
    destruct (decide ("sqlite3" ∈ modules st)); [contradiction|reflexivity].
Qed.

Lemma fetch_records_driver_unavailable_witness :
  driver_unavailable PostgreSQLConnector (boot (W := unit) ∅ ∅ tt) ∧
  degrades (H := offline) PostgreSQLConnector (boot ∅ ∅ tt).
Proof.
  assert (Hmissing : driver_unavailable PostgreSQLConnector (boot (W := unit) ∅ ∅ tt)).
  { exists "psycopg2". split; [apply list_elem_of_here|]. apply not_elem_of_empty. }
  split; [exact Hmissing|].
  exact (fetch_records_driver_unavailable (H := offline) PostgreSQLConnector
           (boot ∅ ∅ tt) Hmissing).
Defined.

(** ** The script *)

Section MainFacts.
Context `{Outside W}.

Lemma main_body_halves (st : state W) :
  main_body st = bind startup (fun cr => after_startup cr.1 cr.2) st.
Proof.
  unfold main_body, startup, after_startup, bind. cbn [logger getenv].
  destruct (NotionDatabaseSync_init _ _ _) as [[client|e] st1]; [|reflexivity].
  destruct (get_connector _ _) as [[connector|e] st2]; [|reflexivity].
  destruct (fetch_records _ _) as [[records|e] st3]; reflexivity.
Qed.

Lemma local_op_ret {A} (a : A) : local_op (W := W) (ret a).
Proof. intros st. by cbn. Qed.

Lemma local_op_raise {A} e :
  is_Exception e = true → local_op (W := W) (raise (A := A) e).
Proof. intros He st. by cbn. Qed.

Lemma local_op_bind {A B} (c : M W A) (k : A → M W B) :
  local_op c → (∀ a, local_op (k a)) → local_op (bind c k).
Proof.
  intros Hc Hk st. unfold bind.
  destruct (Hc st) as (Hcalls & Hs & Hr).
  destruct (c st) as [[a|e] st1]; cbn in *.
  - destruct (Hk a st1) as (Hcalls' & Hs' & Hr').
    repeat split; first [assumption | congruence].
  - repeat split; assumption.
Qed.

Lemma local_op_try_except {A} (body : M W A) cls handler :
  local_op body → (∀ e, local_op (handler e)) →
  local_op (try_except body cls handler).
Proof.
  intros Hb Hh st. unfold try_except.
  destruct (Hb st) as (Hcalls & Hs & Hr).
  destruct (body st) as [[a|e] st1]; cbn in *.
  - repeat split; assumption.
  - destruct (cls e); cbn.
    + destruct (Hh e st1) as (Hcalls' & Hs' & Hr').
      repeat split; first [assumption | congruence].
    + repeat split; assumption.
Qed.

Lemma local_op_logger lvl msg : local_op (W := W) (logger lvl msg).
Proof. intros st. by cbn. Qed.

Lemma local_op_getenv key dflt : local_op (W := W) (getenv key dflt).
Proof. intros st. by cbn. Qed.

Lemma local_op_import name : local_op (W := W) (import name).
Proof. intros st. unfold import. by destruct (decide _). Qed.

Lemma local_op_run_driver req : local_op (run_driver req).
Proof.
  intros st. unfold run_driver.
  by destruct (execute req (world st)) as [[msg|rows] w].
Qed.

Lemma local_op_for_each {A} (xs : list A) (body : A → M W unit) :
  (∀ x, local_op (body x)) → local_op (for_each xs body).
Proof.
  intros Hbody. induction xs as [|x xs IH]; cbn [for_each].
  - apply local_op_ret.
  - apply local_op_bind; [apply Hbody|intros _; exact IH].
Qed.

Ltac local_ops :=
  repeat first
    [ apply local_op_ret
    | apply local_op_logger
    | apply local_op_getenv
    | apply local_op_import
    | apply local_op_run_driver
    | apply local_op_for_each; intros ?
    | apply local_op_try_except; [|intros ?]
    | apply local_op_bind; [|intros ?]
    | match goal with
      | |- local_op (if ?b then _ else _) => destruct b
      end ].

Lemma local_op_init a b : local_op (W := W) (NotionDatabaseSync_init a b).
Proof.
  unfold NotionDatabaseSync_init. local_ops. by apply local_op_raise.
Qed.

Lemma local_op_get_connector db_type : local_op (W := W) (get_connector db_type).
Proof.
  unfold get_connector. local_ops.
  destruct (connectors_get _); [apply local_op_ret|by apply local_op_raise].
Qed.

Lemma local_op_fetch_records connector : local_op (fetch_records connector).
Proof.
  destruct connector; cbn [fetch_records];
    unfold PostgreSQLConnector_fetch_records, MySQLConnector_fetch_records,
      MongoDBConnector_fetch_records, SQLiteConnector_fetch_records,
      import_driver, connection_params;
    local_ops.
Qed.

Lemma local_op_startup : local_op startup.
Proof.
  unfold startup.
  repeat first
    [ apply local_op_init | apply local_op_get_connector
    | apply local_op_fetch_records | apply local_op_ret
    | apply local_op_logger | apply local_op_getenv
    | apply local_op_bind; [|intros ?] ].
Qed.
End MainFacts.

Section ReportFacts.
Context `{Outside W}.

Lemma prints_then_end {A} (r : result A) (c : M W A) :
  (∀ st, c st = (r, st)) → prints_then r c.
Proof. intros Hc st. exists (stdout st). rewrite Hc. by destruct st. Qed.

Lemma prints_then_print line : prints_then (W := W) (Ok tt) (print line).
Proof. intros st. by eexists. Qed.

Lemma prints_then_bind {A} (r : result A) (c : M W unit) (k : M W A) :
  prints_then (Ok tt) c → prints_then r k → prints_then r (c ;; k).
Proof.
  intros Hc Hk st. destruct (Hc st) as [out Hout].
  destruct (Hk (with_stdout out st)) as [out' Hout'].
  exists out'. unfold bind. rewrite Hout, Hout'. reflexivity.
Qed.

Lemma prints_then_for_each (ds : list ErrorDetail) :
  prints_then (W := W) (Ok tt) (for_each ds print_error_detail).
Proof.
  induction ds as [|d ds IH]; cbn [for_each].
  - by apply prints_then_end.
  - apply prints_then_bind; [apply prints_then_print|exact IH].
Qed.

(** The report of [main] and the exit that follows it. *)
Lemma prints_then_report (s : Summary) :
  prints_then (W := W)
    (if (0 <? errors s)%nat then Raise (SystemExit 1) else Ok tt)
    (print (newline +:+ repeat_str "=" 50) ;;
     print "SYNC COMPLETE" ;;
     print (repeat_str "=" 50) ;;
     print ("✅ Created: " +:+ pretty (created s) +:+ " new records") ;;
     print ("📝 Updated: " +:+ pretty (updated s) +:+ " existing records") ;;
     print ("❌ Errors: " +:+ pretty (errors s) +:+ " failed records") ;;
     match error_details s with
     | [] => ret tt
     | _ :: _ =>
         print (newline +:+ "Error Details:") ;;
         for_each (take 5 (error_details s)) print_error_detail
     end ;;
     if (0 <? errors s)%nat then sys_exit 1 else ret tt).
Proof.
  do 6 (apply prints_then_bind; [apply prints_then_print|]).
  apply prints_then_bind.
  - destruct (error_details s); [by apply prints_then_end|].
    apply prints_then_bind; [apply prints_then_print|apply prints_then_for_each].
  - apply prints_then_end. intros st. by destruct (0 <? errors s)%nat.
Qed.

Lemma after_startup_empty client (st : state W) :
  after_startup client [] st
  = (Ok tt, with_log (log st ++ [(INFO, [Text "No records to sync"])]) st).
Proof. reflexivity. Qed.

Lemma after_startup_rows client (rec : Record) records (st : state W) :
  ∃ st2 out,
    sync_from_database client (rec :: records)
      (logger INFO [Text "Syncing to Notion..."] st).2
    = (Ok (summary st2), st2) ∧
    after_startup client (rec :: records) st
    = (if (0 <? errors (summary st2))%nat then Raise (SystemExit 1) else Ok tt,
       with_stdout out st2).
Proof.
  destruct (sync_from_database_total client (rec :: records)
              (logger INFO [Text "Syncing to Notion..."] st).2)
    as (st2 & Hsync & _).
  destruct (prints_then_report (summary st2) st2) as [out Hout].
  exists st2, out. split; [exact Hsync|].
  unfold after_startup. unfold bind at 1.
  cbn [logger snd] in *. unfold bind at 1. rewrite Hsync. exact Hout.
Qed.
End ReportFacts.

Section ExitFacts.
Context `{Outside W}.

(** [main] returns when its suite does. *)
Lemma main_returns (st st' : state W) :
  main_body st = (Ok tt, st') → main st = (Ok tt, st').
Proof. intros Hbody. unfold main, try_except. rewrite Hbody. reflexivity. Qed.

(** [SystemExit] passes through the handler of [main]. *)
Lemma main_exits code (st st' : state W) :
  main_body st = (Raise (SystemExit code), st') →
  main st = (Raise (SystemExit code), st').
Proof. intros Hbody. unfold main, try_except. rewrite Hbody. reflexivity. Qed.

(** Any other exception is logged as fatal and turned into exit status 1. *)
Lemma main_fatal e (st st' : state W) :
  is_Exception e = true →
  main_body st = (Raise e, st') →
  main st
  = (Raise (SystemExit 1),
     with_log (log st' ++ [(ERROR, [Text ("Fatal error: " +:+ exc_str e)])]) st').
Proof.
  intros He Hbody. unfold main, try_except. rewrite Hbody, He. reflexivity.
Qed.
End ExitFacts.



(** The scenario of the specification: three rows, one with a page, one
    new, one without uid, give one update, one create, one error, four
    requests and exit status 1. *)
Example main_three_rows :
  let st := configured ["u1"]
              [ {[ "uid" := PyStr "u1"; "status" := PyStr "Active" ]};
                {[ "uid" := PyStr "u2"; "name" := PyStr "Ada" ]};
                {[ "name" := PyStr "Bob" ]} ] in
  exit_status (main (H := directory) st).1 = 1%Z ∧
  created (summary (main (H := directory) st).2) = 1 ∧
  updated (summary (main (H := directory) st).2) = 1 ∧
  errors (summary (main (H := directory) st).2) = 1 ∧
  length (calls (main (H := directory) st).2) = 4.
Proof. vm_compute. repeat split. Qed.

(** * Further properties *)

(** ** The property formatter *)

Lemma fold_format_entry_ext data data' table properties :
  (∀ prop key kind, (prop, (key, kind)) ∈ table → get data key = get data' key) →
  fold_left (format_entry data) table properties
  = fold_left (format_entry data') table properties.
Proof.
  revert properties.
  induction table as [|[prop [key kind]] table IH]; intros properties Hsame.
  - reflexivity.
  - cbn [fold_left]. rewrite !format_entry_property_value.
    rewrite (Hsame prop key kind) by apply list_elem_of_here.
    apply IH. intros p k t Hin. apply (Hsame p k t).
    by apply list_elem_of_further.
Qed.

(** X1. The formatter reads the nine mapped fields and nothing else: two
    rows that agree on them format alike, so setting any other field of
    a row (an ["_id"], a ["sync_status"]) changes nothing. *)
Theorem format_properties_reads_mapped_fields (data data' : Record) :
  ((∀ key, key ∈ mapped_fields → data !! key = data' !! key) →
   _format_properties data = _format_properties data') ∧
  (∀ key v, key ∉ mapped_fields →
     _format_properties (<[key := v]> data) = _format_properties data).
Proof.
  assert (Hgen : ∀ d d' : Record,
             (∀ key, key ∈ mapped_fields → d !! key = d' !! key) →
             _format_properties d = _format_properties d').
  { intros d d' Hsame. unfold _format_properties.
    apply fold_format_entry_ext. intros prop key kind Hin.
    unfold get. rewrite (Hsame key); [reflexivity|].
    unfold mapped_fields. apply list_elem_of_fmap.
    exists (prop, (key, kind)). split; [reflexivity|assumption]. }
  split; [apply Hgen|].
  intros key v Hout. apply Hgen. intros key' Hin.
  apply lookup_insert_ne. intros ->. contradiction.
Qed.

Lemma format_properties_reads_mapped_fields_witness :
  _format_properties {[ "uid" := PyStr "u1"; "_id" := PyObjectId "65f0" ]}
  = _format_properties {[ "uid" := PyStr "u1"; "sync_status" := PyNone ]}.
Proof.
  apply (proj1 (format_properties_reads_mapped_fields _ _)).
  intros key Hin. unfold mapped_fields, property_mapping in Hin. cbn in Hin.
  repeat (apply elem_of_cons in Hin as [->|Hin]; [reflexivity|]).
  by apply elem_of_nil in Hin.
Defined.

(** X2. A title, rich-text or select property is emitted for every value
    that is not [None], the empty string and other falsy values included,
    with the value stringified; only dates are dropped when falsy. *)
Theorem format_properties_keeps_falsy_text (data : Record) prop key kind v :
  (prop, (key, kind)) ∈ property_mapping →
  data !! key = Some v → v ≠ PyNone →
  (kind = "title" →
   getitem (_format_properties data) prop
   = Some (JObj [("title", JArr [JObj [("text", JObj [("content", JStr (str v))])]])])) ∧
  (kind = "rich_text" →
   getitem (_format_properties data) prop
   = Some (JObj [("rich_text", JArr [JObj [("text", JObj [("content", JStr (str v))])]])])) ∧
  (kind = "select" →
   getitem (_format_properties data) prop
   = Some (JObj [("select", JObj [("name", JStr (str v))])])).
Proof.
  intros Hin Hv Hsome.
  apply property_mapping_getitem in Hin.
  assert (Hget : get data key = v) by (unfold get; by rewrite Hv).
  rewrite format_properties_getitem, Hin, Hget.
  assert (Hnone : is_None v = false) by (by destruct v).
  unfold property_value. rewrite Hnone.
  repeat split; intros ->; reflexivity.
Qed.

Lemma format_properties_keeps_falsy_text_witness :
  getitem (_format_properties {[ "status" := PyStr ""; "uid" := PyInt 0 ]}) "Status"
  = Some (JObj [("select", JObj [("name", JStr "")])]) ∧
  getitem (_format_properties {[ "status" := PyStr ""; "uid" := PyInt 0 ]}) "UID"
  = Some (JObj [("rich_text", JArr [JObj [("text", JObj [("content", JStr "0")])]])]).
Proof.
  split.
  - refine (proj2 (proj2 (format_properties_keeps_falsy_text
                            {[ "status" := PyStr ""; "uid" := PyInt 0 ]}
                            "Status" "status" "select" (PyStr "") _ _ _)) eq_refl).
    + apply property_mapping_getitem. reflexivity.
    + reflexivity.
    + discriminate.
  - refine (proj1 (proj2 (format_properties_keeps_falsy_text
                            {[ "status" := PyStr ""; "uid" := PyInt 0 ]}
                            "UID" "uid" "rich_text" (PyInt 0) _ _ _)) eq_refl).
    + apply property_mapping_getitem. reflexivity.
    + reflexivity.
    + discriminate.
Defined.

(** X3. The formatter emits each property at most once, and none but the
    nine of the mapping table. *)
Theorem format_properties_keys (data : Record) :
  NoDup (keys (_format_properties data)) ∧
  ∀ prop, prop ∈ keys (_format_properties data) → prop ∈ keys property_mapping.
Proof.
  split; [apply format_properties_NoDup|].
  intros prop Hin. apply keys_getitem in Hin as [j Hj].
  rewrite format_properties_getitem in Hj.
  apply keys_getitem.
  destruct (getitem property_mapping prop); [eauto|discriminate].
Qed.

Lemma format_properties_keys_witness :
  "Status" ∈ keys property_mapping.
Proof.
  apply (proj2 (format_properties_keys {[ "status" := PyStr "Active" ]}) "Status").
  apply keys_getitem. eexists. vm_compute. reflexivity.
Defined.

(** ** The properties of an update *)

Lemma update_props_fields prop key kind :
  getitem property_mapping prop = Some (key, kind) →
  bool_decide (key ∈ update_fields) = bool_decide (prop ∈ update_props).
Proof.
  intros Hrow. apply property_mapping_getitem in Hrow.
  unfold property_mapping in Hrow.
  repeat (apply elem_of_cons in Hrow as [[= -> -> ->]|Hrow];
          [vm_compute; reflexivity|]).
  by apply elem_of_nil in Hrow.
Qed.

Lemma update_props_mapped prop :
  getitem property_mapping prop = None →
  bool_decide (prop ∈ update_props) = false.
Proof.
  intros Hnone. apply bool_decide_eq_false. intros Hin.
  unfold update_props in Hin.
  repeat (apply elem_of_cons in Hin as [->|Hin]; [discriminate|]).
  by apply elem_of_nil in Hin.
Qed.

(** X4. The properties of an update are those of a create, cut down to
    the six updatable ones: each of the six is there exactly as the
    formatter renders it for the whole row, and nothing else is. *)
Theorem update_properties_restricts_format (data : Record) prop :
  getitem (update_properties data) prop
  = if bool_decide (prop ∈ update_props)
    then getitem (_format_properties data) prop
    else None.
Proof.
  rewrite update_properties_getitem, format_properties_getitem.
  destruct (getitem property_mapping prop) as [[key kind]|] eqn:Hrow.
  - rewrite (update_props_fields _ _ _ Hrow). reflexivity.
  - rewrite (update_props_mapped _ Hrow). reflexivity.
Qed.

Lemma empty_keys {A} (d : list (string * A)) : keys d = [] → d = [].
Proof. by destruct d. Qed.

(** X5. A row that holds none of the six updatable fields, or holds them
    all as [None], still makes [update_page] send its request: a [PATCH]
    with no properties at all. *)
Theorem update_page_nothing_to_update `{Outside W} self page_id
    (data : Record) (st : state W) :
  (∀ field, field ∈ update_fields → get data field = PyNone) →
  update_properties data = [] ∧
  calls (update_page self page_id data st).2
  = (calls st ++
       [PATCH (base_url self +:+ "/pages/" +:+ str page_id) (headers self)
          (JObj [("properties", JObj [])])])%list.
Proof.
  intros Hnone.
  assert (Hempty : update_properties data = []).
  { apply empty_keys.
    destruct (keys (update_properties data)) as [|prop rest] eqn:Hkeys;
      [reflexivity|].
    assert (Hin : prop ∈ keys (update_properties data))
      by (rewrite Hkeys; apply list_elem_of_here).
    apply keys_getitem in Hin as [j Hj].
    rewrite update_properties_getitem in Hj.
    destruct (getitem property_mapping prop) as [[key kind]|]; [|discriminate].
    destruct (bool_decide (key ∈ update_fields)) eqn:Hfield; [|discriminate].
    apply bool_decide_eq_true in Hfield.
    rewrite (Hnone key Hfield) in Hj. discriminate. }
  split; [exact Hempty|].
  rewrite update_page_calls, Hempty. reflexivity.
Qed.

Lemma update_page_nothing_to_update_witness :
  calls (update_page (H := offline) sample_client (PyStr "page-1")
           {[ "uid" := PyStr "u1"; "name" := PyStr "Ada" ]} (boot ∅ ∅ tt)).2
  = [PATCH ("https://api.notion.com/v1" +:+ "/pages/" +:+ "page-1")
       (headers sample_client) (JObj [("properties", JObj [])])].
Proof.
  refine (proj2 (update_page_nothing_to_update (H := offline) sample_client
                   (PyStr "page-1")
                   {[ "uid" := PyStr "u1"; "name" := PyStr "Ada" ]}
                   (boot ∅ ∅ tt) _)).
  intros field Hin. unfold update_fields in Hin.
  repeat (apply elem_of_cons in Hin as [->|Hin]; [reflexivity|]).
  by apply elem_of_nil in Hin.
Defined.

(** ** The remote page client *)

Section ClientRuns.
Context `{Outside W}.

Lemma requests_send_answer req (st : state W) answer w :
  unserializable (payload_of req) = None →
  send req (world st) = (answer, w) →
  requests_send req st
  = (match answer with
     | inl msg => Raise (RequestException msg None)
     | inr resp => Ok resp
     end, sent req w st).
Proof.
  intros Hser Hsend. unfold requests_send. rewrite Hser, Hsend.
  by destruct answer.
Qed.

Lemma query_request_serializable self uid :
  unserializable (JVal uid) = None →
  unserializable (payload_of (query_request self uid)) = None.
Proof. intros Huid. cbn. cbn in Huid. by rewrite Huid. Qed.

Lemma create_request_serializable self data :
  unserializable (JVal (database_id self)) = None →
  unserializable (payload_of (create_request self data)) = None.
Proof.
  intros Hdb. unfold create_request. cbn [payload_of].
  apply unserializable_JObj. repeat constructor; unfold serializable_member; cbn [snd].
  - apply unserializable_JObj. repeat constructor. exact Hdb.
  - apply unserializable_JObj, format_properties_serializable.
Qed.
End ClientRuns.

Section ClientTheorems.
Context `{Outside W}.

(** The opening of every client method: send, then check the status. *)
Lemma send_and_check {A} req (rest : response → M W A) handler
    (st : state W) answer w :
  unserializable (payload_of req) = None →
  send req (world st) = (answer, w) →
  try_except
    (response <- requests_send req ;; raise_for_status response ;; rest response)
    is_RequestException handler st
  = match answer with
    | inl msg => handler (RequestException msg None) (sent req w st)
    | inr resp =>
        match http_error resp with
        | Some msg => handler (RequestException msg (Some resp)) (sent req w st)
        | None => try_except (rest resp) is_RequestException handler (sent req w st)
        end
    end.
Proof.
  intros Hser Hsend. unfold try_except. unfold bind at 1.
  rewrite (requests_send_answer req st answer w Hser Hsend).
  destruct answer as [msg|resp]; [reflexivity|].
  unfold bind at 1, raise_for_status.
  destruct (http_error resp); reflexivity.
Qed.

(** The run of [check_if_exists] on a query that is answered well. *)
Lemma check_if_exists_answered self uid (st : state W) resp w b :
  unserializable (JVal uid) = None →
  send (query_request self uid) (world st) = (inr resp, w) →
  http_error resp = None →
  decoded resp = inr b →
  check_if_exists self uid st
  = (Ok (hd PyNone (default [] (results b))),
     sent (query_request self uid) w st).
Proof.
  intros Huid Hsend Hstatus Hbody.
  unfold check_if_exists, requests_post.
  change (POST _ _ _) with (query_request self uid).
  rewrite (send_and_check _ _ _ st (inr resp) w
             (query_request_serializable self uid Huid) Hsend).
  rewrite Hstatus.
  generalize (sent (query_request self uid) w st). intros st1.
  unfold try_except, bind, response_json. rewrite Hbody. cbn [ret].
  by destruct (default [] (results b)).
Qed.

(** X6. When the query is answered with a success status and a body that
    decodes, [check_if_exists] returns the id of the first result, or
    [None] when the results are empty or the body has none; it has sent
    that one query and logged nothing. *)
Theorem check_if_exists_first_result self uid (st : state W) resp w b :
  unserializable (JVal uid) = None →
  send (query_request self uid) (world st) = (inr resp, w) →
  http_error resp = None →
  decoded resp = inr b →
  check_if_exists self uid st
  = (Ok (hd PyNone (default [] (results b))),
     sent (query_request self uid) w st).
Proof. apply check_if_exists_answered. Qed.

(** X7. When the query fails in transport or is answered with an error
    status, [check_if_exists] logs one error with the message of the
    failure and raises that very exception; the one query has been
    sent. *)
Theorem check_if_exists_failure self uid (st : state W) answer w :
  unserializable (JVal uid) = None →
  send (query_request self uid) (world st) = (answer, w) →
  ∀ e,
    match answer with
    | inl msg => e = RequestException msg None
    | inr resp =>
        match http_error resp with
        | Some msg => e = RequestException msg (Some resp)
        | None => False
        end
    end →
    check_if_exists self uid st
    = (Raise e,
       logged ERROR [Text ("Error checking existence: " +:+ exc_str e)]
         (sent (query_request self uid) w st)).
Proof.
  intros Huid Hsend e He.
  unfold check_if_exists, requests_post.
  change (POST _ _ _) with (query_request self uid).
  rewrite (send_and_check _ _ _ st answer w
             (query_request_serializable self uid Huid) Hsend).
  generalize (sent (query_request self uid) w st). intros st1.
  destruct answer as [msg|resp]; [by subst e|].
  destruct (http_error resp) as [msg|]; [by subst e|contradiction].
Qed.
End ClientTheorems.

Section CreateTheorems.
Context `{Outside W}.

(** The run of [create_page] on a create that is answered well. *)
Lemma create_page_answered self (data : Record) (st : state W) resp w b :
  unserializable (JVal (database_id self)) = None →
  send (create_request self data) (world st) = (inr resp, w) →
  http_error resp = None →
  decoded resp = inr b →
  create_page self data st
  = (Ok b,
     logged INFO
       [Text ("Successfully created page for UID: " +:+ str (get data "uid"))]
       (sent (create_request self data) w st)).
Proof.
  intros Hdb Hsend Hstatus Hbody.
  unfold create_page, requests_post.
  change (POST _ _ _) with (create_request self data).
  rewrite (send_and_check _ _ _ st (inr resp) w
             (create_request_serializable self data Hdb) Hsend).
  rewrite Hstatus.
  generalize (sent (create_request self data) w st). intros st1.
  unfold try_except, bind, response_json. rewrite Hbody. reflexivity.
Qed.

(** X8. [create_page] sends one [POST] to [/pages] that carries the
    parent database and every property the formatter gives for the row;
    answered with a success status and a body that decodes, it logs the
    success and returns that body. *)
Theorem create_page_success self (data : Record) (st : state W) resp w b :
  unserializable (JVal (database_id self)) = None →
  send (create_request self data) (world st) = (inr resp, w) →
  http_error resp = None →
  decoded resp = inr b →
  create_page self data st
  = (Ok b,
     logged INFO
       [Text ("Successfully created page for UID: " +:+ str (get data "uid"))]
       (sent (create_request self data) w st)).
Proof. apply create_page_answered. Qed.

(** X9. When the create is answered with an error status, [create_page]
    logs the HTTP error and raises it, after logging the decoded body of
    the response; but when that body does not decode, the exception that
    leaves [create_page] is the decoding error, not the HTTP error. *)
Theorem create_page_error_status self (data : Record) (st : state W) resp w msg :
  unserializable (JVal (database_id self)) = None →
  send (create_request self data) (world st) = (inr resp, w) →
  http_error resp = Some msg →
  create_page self data st
  = match decoded resp with
    | inr b =>
        (Raise (RequestException msg (Some resp)),
         logged ERROR [Text "Response: "; ReprBody b]
           (logged ERROR [Text ("Error creating page: " +:+ msg)]
              (sent (create_request self data) w st)))
    | inl undecodable =>
        (Raise (RequestException undecodable None),
         logged ERROR [Text ("Error creating page: " +:+ msg)]
           (sent (create_request self data) w st))
    end.
Proof.
  intros Hdb Hsend Hstatus.
  unfold create_page, requests_post.
  change (POST _ _ _) with (create_request self data).
  rewrite (send_and_check _ _ _ st (inr resp) w
             (create_request_serializable self data Hdb) Hsend).
  rewrite Hstatus.
  generalize (sent (create_request self data) w st). intros st1.
  unfold bind, response_json, logger. cbn [exc_str].
  destruct (decoded resp); reflexivity.
Qed.
End CreateTheorems.

Lemma check_if_exists_first_result_witness :
  check_if_exists (H := directory) sample_client (PyStr "u1")
    (configured ["u1"] [])
  = (Ok (PyStr "page-u1"),
     sent (query_request sample_client (PyStr "u1")) (["u1"], [])
       (configured ["u1"] [])).
Proof.
  apply (check_if_exists_first_result (H := directory) sample_client
           (PyStr "u1") (configured ["u1"] [])
           {| http_error := None;
              decoded := inr {| results := Some [PyStr "page-u1"] |} |}
           (["u1"], []) {| results := Some [PyStr "page-u1"] |});
    reflexivity.
Defined.

Lemma check_if_exists_failure_witness :
  check_if_exists (H := offline) sample_client (PyStr "u1") (boot ∅ ∅ tt)
  = (Raise (RequestException "Connection refused" None),
     logged ERROR [Text "Error checking existence: Connection refused"]
       (sent (query_request sample_client (PyStr "u1")) tt (boot ∅ ∅ tt))).
Proof.
  apply (check_if_exists_failure (H := offline) sample_client (PyStr "u1")
           (boot ∅ ∅ tt) (inl "Connection refused") tt);
    reflexivity.
Defined.

Lemma create_page_success_witness :
  create_page (H := directory) sample_client {[ "uid" := PyStr "u2" ]}
    (configured [] [])
  = (Ok {| results := None |},
     logged INFO [Text "Successfully created page for UID: u2"]
       (sent (create_request sample_client {[ "uid" := PyStr "u2" ]}) ([], [])
          (configured [] []))).
Proof.
  exact (create_page_success (H := directory) sample_client
           {[ "uid" := PyStr "u2" ]} (configured [] [])
           {| http_error := None; decoded := inr {| results := None |} |}
           ([], []) {| results := None |} eq_refl eq_refl eq_refl eq_refl).
Defined.

Lemma create_page_error_status_witness :
  create_page (H := bad_gateway) sample_client {[ "uid" := PyStr "u2" ]}
    (boot ∅ ∅ tt)
  = (Raise (RequestException "Expecting value: line 1 column 1 (char 0)" None),
     logged ERROR [Text "Error creating page: 502 Server Error: Bad Gateway"]
       (sent (create_request sample_client {[ "uid" := PyStr "u2" ]}) tt
          (boot ∅ ∅ tt))).
Proof.
  exact (create_page_error_status (H := bad_gateway) sample_client
           {[ "uid" := PyStr "u2" ]} (boot ∅ ∅ tt)
           {| http_error := Some "502 Server Error: Bad Gateway";
              decoded := inl "Expecting value: line 1 column 1 (char 0)" |}
           tt "502 Server Error: Bad Gateway" eq_refl eq_refl eq_refl).
Defined.

(** ** Requests per row *)

Section RequestCounts.
Context `{Outside W}.

Lemma sends_weaken {A} n m (c : M W A) :
  (n ≤ m)%nat → sends_at_most n c → sends_at_most m c.
Proof.
  intros Hle Hc st. destruct (Hc st) as (new & Hcalls & Hlen).
  exists new. split; [assumption|lia].
Qed.

Lemma sends_nothing {A} (c : M W A) :
  (∀ st, calls (c st).2 = calls st) → sends_at_most 0 c.
Proof.
  intros Hc st. exists []. rewrite Hc, app_nil_r. split; [reflexivity|cbn; lia].
Qed.

Lemma sends_bind {A B} n m (c : M W A) (k : A → M W B) :
  sends_at_most n c → (∀ a, sends_at_most m (k a)) →
  sends_at_most (n + m)%nat (bind c k).
Proof.
  intros Hc Hk st. unfold bind.
  destruct (Hc st) as (new & Hcalls & Hlen).
  destruct (c st) as [[a|e] st1]; cbn [snd] in *.
  - destruct (Hk a st1) as (new' & Hcalls' & Hlen').
    exists (new ++ new')%list. rewrite Hcalls', Hcalls, app_assoc, length_app.
    split; [reflexivity|lia].
  - exists new. split; [assumption|lia].
Qed.

Lemma sends_try_except {A} n m (body : M W A) cls handler :
  sends_at_most n body → (∀ e, sends_at_most m (handler e)) →
  sends_at_most (n + m)%nat (try_except body cls handler).
Proof.
  intros Hb Hh st. unfold try_except.
  destruct (Hb st) as (new & Hcalls & Hlen).
  destruct (body st) as [[a|e] st1]; cbn [snd] in *.
  - exists new. split; [assumption|lia].
  - destruct (cls e).
    + destruct (Hh e st1) as (new' & Hcalls' & Hlen').
      exists (new ++ new')%list. rewrite Hcalls', Hcalls, app_assoc, length_app.
      split; [reflexivity|lia].
    + exists new. split; [assumption|lia].
Qed.

Lemma sends_requests_send req : sends_at_most 1 (requests_send req).
Proof.
  intros st. unfold requests_send.
  destruct (unserializable (payload_of req)).
  - exists []. cbn. rewrite app_nil_r. split; [reflexivity|lia].
  - destruct (send req (world st)) as [[msg|resp] w];
      exists [req]; split; reflexivity || (cbn; lia).
Qed.

(** What sends nothing: logging, status checks, decoding, counting. *)
Lemma sends_logger lvl msg : sends_at_most (W := W) 0 (logger lvl msg).
Proof. by apply sends_nothing. Qed.

Lemma sends_ret {A} (a : A) : sends_at_most (W := W) 0 (ret a).
Proof. by apply sends_nothing. Qed.

Lemma sends_raise {A} e : sends_at_most (W := W) 0 (raise (A := A) e).
Proof. by apply sends_nothing. Qed.

Lemma sends_raise_for_status r : sends_at_most (W := W) 0 (raise_for_status r).
Proof. apply sends_nothing. intros st. unfold raise_for_status. by destruct (http_error r). Qed.

Lemma sends_response_json r : sends_at_most (W := W) 0 (response_json r).
Proof. apply sends_nothing. intros st. unfold response_json. by destruct (decoded r). Qed.

Lemma sends_check_if_exists self uid : sends_at_most 1 (check_if_exists self uid).
Proof.
  unfold check_if_exists, requests_post.
  apply (sends_try_except 1 0).
  - apply (sends_bind 1 0); [apply sends_requests_send|intros response].
    apply (sends_bind 0 0); [apply sends_raise_for_status|intros _].
    apply (sends_bind 0 0); [apply sends_response_json|intros b].
    destruct (default [] (results b)); apply sends_ret.
  - intros e. apply (sends_bind 0 0); [apply sends_logger|intros _; apply sends_raise].
Qed.

Lemma sends_update_page self page_id data :
  sends_at_most 1 (update_page self page_id data).
Proof.
  unfold update_page, requests_patch.
  apply (sends_try_except 1 0).
  - apply (sends_bind 1 0); [apply sends_requests_send|intros response].
    apply (sends_bind 0 0); [apply sends_raise_for_status|intros _].
    apply (sends_bind 0 0); [apply sends_logger|intros _].
    apply sends_response_json.
  - intros e. apply (sends_bind 0 0); [apply sends_logger|intros _; apply sends_raise].
Qed.

Lemma sends_create_page self data : sends_at_most 1 (create_page self data).
Proof.
  unfold create_page, requests_post.
  apply (sends_try_except 1 0).
  - apply (sends_bind 1 0); [apply sends_requests_send|intros response].
    apply (sends_bind 0 0); [apply sends_raise_for_status|intros _].
    apply (sends_bind 0 0); [apply sends_logger|intros _].
    apply sends_response_json.
  - intros e. apply (sends_bind 0 0); [apply sends_logger|intros _].
    apply (sends_bind 0 0); [|intros _; apply sends_raise].
    destruct e as [msg [r|]| | | | |]; try apply sends_ret.
    apply (sends_bind 0 0); [apply sends_response_json|intros b; apply sends_logger].
Qed.

Lemma sends_summary_update (c : M W unit) :
  (∀ st, ∃ s, c st = (Ok tt, with_summary s st)) → sends_at_most 0 c.
Proof.
  intros Hc. apply sends_nothing. intros st.
  destruct (Hc st) as [s ->]. reflexivity.
Qed.

Lemma sends_incr_errors : sends_at_most (W := W) 0 incr_errors.
Proof. apply sends_summary_update. intros st. by eexists. Qed.

Lemma sends_incr_created : sends_at_most (W := W) 0 incr_created.
Proof. apply sends_summary_update. intros st. by eexists. Qed.

Lemma sends_incr_updated : sends_at_most (W := W) 0 incr_updated.
Proof. apply sends_summary_update. intros st. by eexists. Qed.

Lemma sends_append_error_detail d :
  sends_at_most (W := W) 0 (append_error_detail d).
Proof. apply sends_summary_update. intros st. by eexists. Qed.

Lemma sends_sync_record self rec : sends_at_most 2 (sync_record self rec).
Proof.
  unfold sync_record. apply (sends_try_except 2 0).
  - destruct (negb (truthy (get rec "uid"))).
    + apply (sends_weaken 0); [lia|].
      apply (sends_bind 0 0); [apply sends_logger|intros _].
      apply (sends_bind 0 0); [apply sends_incr_errors|intros _].
      apply sends_append_error_detail.
    + apply (sends_bind 1 1); [apply sends_check_if_exists|intros page_id].
      destruct (truthy page_id).
      * apply (sends_bind 0 1); [apply sends_logger|intros _].
        apply (sends_bind 1 0); [apply sends_update_page|intros _].
        apply sends_incr_updated.
      * apply (sends_bind 0 1); [apply sends_logger|intros _].
        apply (sends_bind 1 0); [apply sends_create_page|intros _].
        apply sends_incr_created.
  - intros e. apply (sends_bind 0 0); [apply sends_logger|intros _].
    apply (sends_bind 0 0); [apply sends_incr_errors|intros _].
    apply sends_append_error_detail.
Qed.

Lemma sends_for_each {A} n (xs : list A) (body : A → M W unit) :
  (∀ x, sends_at_most n (body x)) →
  sends_at_most (n * length xs)%nat (for_each xs body).
Proof.
  intros Hbody. induction xs as [|x xs IH]; cbn [for_each length].
  - apply (sends_weaken 0); [lia|apply sends_ret].
  - apply (sends_weaken (n + n * length xs)%nat); [lia|].
    apply sends_bind; [apply Hbody|intros _; exact IH].
Qed.

Lemma sends_sync_from_database self records :
  sends_at_most (2 * length records)%nat (sync_from_database self records).
Proof.
  unfold sync_from_database.
  apply (sends_bind 0 (2 * length records)%nat);
    [apply sends_summary_update; intros st; by eexists|intros _].
  apply (sends_weaken (2 * length records + 0)%nat); [lia|].
  apply sends_bind; [apply sends_for_each, sends_sync_record|intros _].
  apply (sends_bind 0 0); [by apply sends_nothing|intros s].
  apply (sends_bind 0 0); [apply sends_logger|intros _].
  by apply sends_nothing.
Qed.
End RequestCounts.

(** X10. A row costs at most two requests, and the whole of
    [sync_from_database] at most two for each row; what was sent before
    stays at the head of the record of calls. *)
Theorem sync_sends_at_most_two_per_row `{Outside W} self (rec : Record)
    (records : list Record) :
  sends_at_most 2 (sync_record self rec) ∧
  sends_at_most (2 * length records)%nat (sync_from_database self records).
Proof. split; [apply sends_sync_record|apply sends_sync_from_database]. Qed.

(** ** The two successful paths of a row *)

Section RowPaths.
Context `{Outside W}.

Lemma update_request_serializable self page_id data :
  unserializable (payload_of (update_request self page_id data)) = None.
Proof. apply update_payload_serializable. Qed.

Lemma update_page_success self page_id (data : Record) (st : state W) resp w b :
  send (update_request self page_id data) (world st) = (inr resp, w) →
  http_error resp = None →
  decoded resp = inr b →
  update_page self page_id data st
  = (Ok b,
     logged INFO [Text ("Successfully updated page: " +:+ str page_id)]
       (sent (update_request self page_id data) w st)).
Proof.
  intros Hsend Hstatus Hbody.
  unfold update_page, requests_patch.
  change (PATCH _ _ _) with (update_request self page_id data).
  rewrite (send_and_check _ _ _ st (inr resp) w
             (update_request_serializable self page_id data) Hsend).
  rewrite Hstatus.
  generalize (sent (update_request self page_id data) w st). intros st1.
  unfold try_except, bind, response_json. rewrite Hbody. reflexivity.
Qed.
End RowPaths.

(** X11. A row whose uid the remote knows is updated and not created:
    when the query lists a page and the patch of that page succeeds, the
    row costs exactly the query and the patch, in this order, and only
    [updated] goes up, by one. *)
Theorem sync_record_update_path `{Outside W} self (rec : Record) (st : state W)
    resp w b page_id resp' w' b' :
  truthy (get rec "uid") = true →
  unserializable (JVal (get rec "uid")) = None →
  send (query_request self (get rec "uid")) (world st) = (inr resp, w) →
  http_error resp = None → decoded resp = inr b →
  hd PyNone (default [] (results b)) = page_id → truthy page_id = true →
  send (update_request self page_id rec) w = (inr resp', w') →
  http_error resp' = None → decoded resp' = inr b' →
  ∃ st',
    sync_record self rec st = (Ok tt, st') ∧
    calls st'
    = (calls st ++ [query_request self (get rec "uid");
                    update_request self page_id rec])%list ∧
    world st' = w' ∧
    summary st'
    = {| created := created (summary st); updated := updated (summary st) + 1;
         errors := errors (summary st);
         error_details := error_details (summary st) |}.
Proof.
  intros Huid Hser Hquery Hstatus Hbody Hid Hfound Hpatch Hstatus' Hbody'.
  pose proof (check_if_exists_answered self _ st resp w b
                Hser Hquery Hstatus Hbody) as Hcheck.
  rewrite Hid in Hcheck.
  eexists. split.
  - eapply sync_record_updated; [exact Huid|exact Hcheck|exact Hfound|].
    apply (update_page_success self page_id rec _ resp' w' b');
      [exact Hpatch|exact Hstatus'|exact Hbody'].
  - cbn. rewrite <- app_assoc. repeat split.
Qed.

(** X12. A row whose uid the remote does not know is created and not
    updated: when the query lists no page and the create succeeds, the
    row costs exactly the query and the create, in this order, and only
    [created] goes up, by one. *)
Theorem sync_record_create_path `{Outside W} self (rec : Record) (st : state W)
    resp w b resp' w' b' :
  truthy (get rec "uid") = true →
  unserializable (JVal (get rec "uid")) = None →
  unserializable (JVal (database_id self)) = None →
  send (query_request self (get rec "uid")) (world st) = (inr resp, w) →
  http_error resp = None → decoded resp = inr b →
  truthy (hd PyNone (default [] (results b))) = false →
  send (create_request self rec) w = (inr resp', w') →
  http_error resp' = None → decoded resp' = inr b' →
  ∃ st',
    sync_record self rec st = (Ok tt, st') ∧
    calls st'
    = (calls st ++ [query_request self (get rec "uid");
                    create_request self rec])%list ∧
    world st' = w' ∧
    summary st'
    = {| created := created (summary st) + 1; updated := updated (summary st);
         errors := errors (summary st);
         error_details := error_details (summary st) |}.
Proof.
  intros Huid Hser Hdb Hquery Hstatus Hbody Hnone Hpost Hstatus' Hbody'.
  pose proof (check_if_exists_answered self _ st resp w b
                Hser Hquery Hstatus Hbody) as Hcheck.
  eexists. split.
  - eapply sync_record_created; [exact Huid|exact Hcheck|exact Hnone|].
    apply (create_page_answered self rec _ resp' w' b');
      [exact Hdb|exact Hpost|exact Hstatus'|exact Hbody'].
  - cbn. rewrite <- app_assoc. repeat split.
Qed.

Lemma sync_record_update_path_witness :
  ∃ st',
    sync_record (H := directory) sample_client
      {[ "uid" := PyStr "u1"; "status" := PyStr "Active" ]}
      (configured ["u1"] []) = (Ok tt, st') ∧
    length (calls st') = 2 ∧
    updated (summary st') = 1.
Proof.
  pose (row := ({[ "uid" := PyStr "u1"; "status" := PyStr "Active" ]} : Record)).
  destruct (sync_record_update_path (H := directory) sample_client row
              (configured ["u1"] [])
              {| http_error := None;
                 decoded := inr {| results := Some [PyStr "page-u1"] |} |}
              (["u1"], []) {| results := Some [PyStr "page-u1"] |}
              (PyStr "page-u1")
              {| http_error := None; decoded := inr {| results := None |} |}
              (["u1"], []) {| results := None |}
              ltac:(vm_compute; reflexivity) ltac:(vm_compute; reflexivity)
              ltac:(vm_compute; reflexivity) ltac:(vm_compute; reflexivity)
              ltac:(vm_compute; reflexivity) ltac:(vm_compute; reflexivity)
              ltac:(vm_compute; reflexivity) ltac:(vm_compute; reflexivity)
              ltac:(vm_compute; reflexivity) ltac:(vm_compute; reflexivity))
    as (st' & Hrun & Hcalls & _ & Hsummary).
  exists st'. split; [exact Hrun|].
  rewrite Hcalls, Hsummary. split; reflexivity.
Defined.

Lemma sync_record_create_path_witness :
  ∃ st',
    sync_record (H := directory) sample_client
      {[ "uid" := PyStr "u2"; "name" := PyStr "Ada" ]}
      (configured ["u1"] []) = (Ok tt, st') ∧
    length (calls st') = 2 ∧
    created (summary st') = 1.
Proof.
  pose (row := ({[ "uid" := PyStr "u2"; "name" := PyStr "Ada" ]} : Record)).
  destruct (sync_record_create_path (H := directory) sample_client row
              (configured ["u1"] [])
              {| http_error := None; decoded := inr {| results := Some [] |} |}
              (["u1"], []) {| results := Some [] |}
              {| http_error := None; decoded := inr {| results := None |} |}
              (["u1"], []) {| results := None |}
              ltac:(vm_compute; reflexivity) ltac:(vm_compute; reflexivity)
              ltac:(vm_compute; reflexivity) ltac:(vm_compute; reflexivity)
              ltac:(vm_compute; reflexivity) ltac:(vm_compute; reflexivity)
              ltac:(vm_compute; reflexivity) ltac:(vm_compute; reflexivity)
              ltac:(vm_compute; reflexivity) ltac:(vm_compute; reflexivity))
    as (st' & Hrun & Hcalls & _ & Hsummary).
  exists st'. split; [exact Hrun|].
  rewrite Hcalls, Hsummary. split; reflexivity.
Defined.

(** ** The order of the recorded failures *)

Section FailureOrder.
Context `{Outside W}.

(** After a row, [error_details] is as before, or has one more entry,
    which carries that row. *)
Lemma sync_record_detail self (rec : Record) (st : state W) :
  ∃ st', sync_record self rec st = (Ok tt, st') ∧
         (error_details (summary st') = error_details (summary st) ∨
          ∃ msg, error_details (summary st')
                 = (error_details (summary st)
                    ++ [{| record := rec; error := msg |}])%list).
Proof.
  destruct (truthy (get rec "uid")) eqn:Huid.
  2:{ destruct (sync_record_falsy_uid self rec st Huid)
        as (st' & Hr & _ & _ & (_ & _ & _ & Hd) & _).
      eauto. }
  assert (Hfailure : ∀ e st1, remote_failure self rec st e st1 →
            ∃ st', sync_record self rec st = (Ok tt, st') ∧
                   (error_details (summary st') = error_details (summary st) ∨
                    ∃ msg, error_details (summary st')
                           = (error_details (summary st)
                              ++ [{| record := rec; error := msg |}])%list)).
  { intros e st1 Hf.
    destruct (sync_record_remote_failure self rec st e st1 Hf)
      as (st' & Hr & _ & _ & (_ & _ & _ & Hd)).
    eauto. }
  destruct (check_if_exists self (get rec "uid") st) as [[page_id|e] st0] eqn:Hc.
  2:{ eapply Hfailure. by apply exists_fails. }
  destruct (truthy page_id) eqn:Hid.
  - destruct (update_page self page_id rec
                (logger INFO [Text ("Updating existing record: "
                                    +:+ str (get rec "uid"))] st0).2)
      as [[b|e] st1] eqn:Hu.
    + eexists. split; [by eapply sync_record_updated|]. left. reflexivity.
    + eapply Hfailure. by eapply update_fails.
  - destruct (create_page self rec
                (logger INFO [Text ("Creating new record: "
                                    +:+ str (get rec "uid"))] st0).2)
      as [[b|e] st1] eqn:Hu.
    + eexists. split; [by eapply sync_record_created|]. left. reflexivity.
    + eapply Hfailure. by eapply create_fails.
Qed.

Lemma for_each_sync_record_details self (records : list Record) (st : state W) :
  ∃ st' failed,
    for_each records (sync_record self) st = (Ok tt, st') ∧
    map record (error_details (summary st'))
    = (map record (error_details (summary st)) ++ failed)%list ∧
    sublist failed records.
Proof.
  revert st. induction records as [|rec records IH]; intros st.
  - exists st, []. rewrite app_nil_r. repeat split. constructor.
  - destruct (sync_record_detail self rec st) as (st1 & Hrec & Hdetail).
    destruct (IH st1) as (st' & failed & Hrest & Hmap & Hsub).
    cbn [for_each]. unfold bind. rewrite Hrec.
    destruct Hdetail as [Hsame | [msg Hmore]].
    + exists st', failed. rewrite Hmap, Hsame.
      split; [exact Hrest|]. split; [reflexivity|]. by apply sublist_cons.
    + exists st', (rec :: failed). rewrite Hmap, Hmore, map_app, <- app_assoc.
      split; [exact Hrest|]. split; [reflexivity|]. by apply sublist_skip.
Qed.
End FailureOrder.

(** X13. The rows listed in [error_details] of the returned summary are
    rows of the input, each as it came, in the order of the input. *)
Theorem sync_from_database_failures_in_order `{Outside W} self
    (records : list Record) (st : state W) :
  ∃ st',
    sync_from_database self records st = (Ok (summary st'), st') ∧
    sublist (map record (error_details (summary st'))) records.
Proof.
  unfold sync_from_database.
  destruct (for_each_sync_record_details self records
              (with_summary fresh_summary st))
    as (st1 & failed & Hloop & Hmap & Hsub).
  unfold bind at 1. cbn [set_summary]. unfold bind at 1. rewrite Hloop.
  cbn. eexists. split; [reflexivity|]. cbn in *. by rewrite Hmap.
Qed.

(** ** Connectors with their driver *)

(** X14. Stringifying the ["_id"] of a document leaves a row without one
    as it is; in a row with one it replaces it by its [str] and touches no
    other field; and doing it twice is doing it once. *)
Theorem stringify_id_only_id (rec : Record) :
  (rec !! "_id" = None → stringify_id rec = rec) ∧
  (∀ oid, rec !! "_id" = Some oid →
          stringify_id rec !! "_id" = Some (PyStr (str oid))) ∧
  (∀ key, key ≠ "_id" → stringify_id rec !! key = rec !! key) ∧
  stringify_id (stringify_id rec) = stringify_id rec.
Proof.
  unfold stringify_id at 1 2 3.
  split; [|split; [|split]].
  - intros ->. reflexivity.
  - intros oid ->. apply lookup_insert_eq.
  - intros key Hkey. destruct (rec !! "_id"); [|reflexivity].
    by apply lookup_insert_ne.
  - unfold stringify_id. destruct (rec !! "_id") as [oid|] eqn:Hid.
    + rewrite lookup_insert_eq. cbn [str]. apply insert_insert_eq.
    + rewrite Hid. reflexivity.
Qed.

Lemma stringify_id_only_id_witness :
  stringify_id {[ "_id" := PyObjectId "65f0a1"; "uid" := PyStr "u1" ]} !! "_id"
  = Some (PyStr "65f0a1").
Proof.
  apply (proj1 (proj2 (stringify_id_only_id
                         {[ "_id" := PyObjectId "65f0a1"; "uid" := PyStr "u1" ]}))
           (PyObjectId "65f0a1")).
  vm_compute. reflexivity.
Defined.

Section DriverAnswers.
Context `{Outside W}.




End DriverAnswers.



(** ** The start of [main] *)

Section StartupRuns.
Context `{Outside W}.

Lemma unset_falsy key (st : state W) :
  unset key st →
  truthy (from_option PyStr PyNone (environ st !! key)) = false.
Proof. intros [-> | ->]; reflexivity. Qed.

Lemma init_unset (st : state W) :
  unset "NOTION_TOKEN" st ∨ unset "NOTION_DATABASE_ID" st →
  NotionDatabaseSync_init PyNone PyNone st
  = (Raise (ValueError
              ("NOTION_TOKEN and NOTION_DATABASE_ID must be provided " +:+
               "either as arguments or environment variables")), st).
Proof.
  intros Hunset. unfold NotionDatabaseSync_init, bind, getenv.
  cbn [py_or truthy].
  destruct Hunset as [Hu|Hu]; apply unset_falsy in Hu; rewrite Hu; cbn [negb orb].
  - reflexivity.
  - rewrite orb_true_r. reflexivity.
Qed.

Lemma init_set (st : state W) token database :
  environ st !! "NOTION_TOKEN" = Some token → token ≠ "" →
  environ st !! "NOTION_DATABASE_ID" = Some database → database ≠ "" →
  NotionDatabaseSync_init PyNone PyNone st = (Ok (client_of token database), st).
Proof.
  intros Htoken Hne Hdatabase Hne'.
  unfold NotionDatabaseSync_init, bind, getenv. rewrite Htoken, Hdatabase.
  cbn [py_or truthy from_option].
  destruct (String.eqb_spec token ""); [contradiction|].
  destruct (String.eqb_spec database ""); [contradiction|].
  reflexivity.
Qed.

Lemma py_or_same v : py_or v v = v.
Proof. unfold py_or. by destruct (truthy v). Qed.

(** [main] up to the connector it fetches with. *)
Lemma startup_connected (st : state W) token database connector :
  environ st !! "NOTION_TOKEN" = Some token → token ≠ "" →
  environ st !! "NOTION_DATABASE_ID" = Some database → database ≠ "" →
  connectors_get (backend st) = Some connector →
  startup st
  = match fetch_records connector (about_to_fetch st) with
    | (Ok records, st') =>
        (Ok (client_of token database, records),
         logged INFO
           [Text ("Found " +:+ pretty (length records) +:+ " records to sync")]
           st')
    | (Raise e, st') => (Raise e, st')
    end.
Proof.
  intros Htoken Hne Hdatabase Hne' Hconnector.
  unfold startup. unfold bind at 1. cbn [logger].
  unfold bind at 1.
  match goal with
  | |- context [NotionDatabaseSync_init PyNone PyNone ?s] =>
      rewrite (init_set s token database Htoken Hne Hdatabase Hne')
  end.
  unfold bind at 1. cbn [getenv]. unfold bind at 1. cbn [logger].
  unfold bind at 1. rewrite get_connector_run. cbn [environ with_log].
  rewrite py_or_same. fold (backend st). cbv zeta. rewrite Hconnector.
  unfold bind at 1. cbn [logger]. unfold bind at 1.
  match goal with
  | |- context [fetch_records connector ?s = _] => idtac
  | |- match fetch_records connector ?s with _ => _ end = _ =>
      change s with (about_to_fetch st)
  end.
  destruct (fetch_records connector (about_to_fetch st)) as [[records|e] st'];
    reflexivity.
Qed.
End StartupRuns.

(** ** Fatal starts *)

(** X16. Without a token or without a database id in the environment
    (absent or empty), [main] stops at once: it logs the fatal error and
    exits with status 1, and has neither asked the database nor sent a
    request nor printed a line. *)
Theorem main_missing_configuration `{Outside W} (st : state W) :
  unset "NOTION_TOKEN" st ∨ unset "NOTION_DATABASE_ID" st →
  main st
  = (Raise (SystemExit 1),
     logged ERROR
       [Text ("Fatal error: NOTION_TOKEN and NOTION_DATABASE_ID must be " +:+
              "provided either as arguments or environment variables")]
       (logged INFO [Text "Initializing Notion sync client..."] st)) ∧
  exit_status (main st).1 = 1%Z.
Proof.
  intros Hunset.
  assert (Hbody : main_body st
                  = (Raise (ValueError
                       ("NOTION_TOKEN and NOTION_DATABASE_ID must be provided "
                        +:+ "either as arguments or environment variables")),
                     logged INFO [Text "Initializing Notion sync client..."] st)).
  { unfold main_body. unfold bind at 1. cbn [logger]. unfold bind at 1.
    match goal with
    | |- context [NotionDatabaseSync_init PyNone PyNone ?s] =>
        rewrite (init_unset s Hunset)
    end.
    reflexivity. }
  rewrite (main_fatal (ValueError _) _ _ eq_refl Hbody). split; reflexivity.
Qed.

Lemma main_missing_configuration_witness :
  exit_status (main (H := offline) (boot ∅ ∅ tt)).1 = 1%Z.
Proof.
  apply (main_missing_configuration (H := offline) (boot ∅ ∅ tt)).
  left. left. reflexivity.
Defined.

(** X17. With the client configured and a [DB_TYPE] that names none of
    the four backends, [main] stops before it reaches for any database:
    it logs that the type is unsupported and exits with status 1. *)
Theorem main_unknown_backend `{Outside W} (st : state W) token database name :
  environ st !! "NOTION_TOKEN" = Some token → token ≠ "" →
  environ st !! "NOTION_DATABASE_ID" = Some database → database ≠ "" →
  environ st !! "DB_TYPE" = Some name →
  name ∉ ["postgresql"; "mysql"; "mongodb"; "sqlite"] →
  main st
  = (Raise (SystemExit 1),
     logged ERROR [Text ("Fatal error: Unsupported database type: " +:+ name)]
       (logged INFO [Text ("Connecting to " +:+ name +:+ " database...")]
          (logged INFO [Text "Initializing Notion sync client..."] st))) ∧
  exit_status (main st).1 = 1%Z.
Proof.
  intros Htoken Hne Hdatabase Hne' Htype Hout.
  assert (Hbody : main_body st
                  = (Raise (ValueError ("Unsupported database type: " +:+ name)),
                     logged INFO [Text ("Connecting to " +:+ name +:+ " database...")]
                       (logged INFO [Text "Initializing Notion sync client..."] st))).
  { unfold main_body. unfold bind at 1. cbn [logger]. unfold bind at 1.
    match goal with
    | |- context [NotionDatabaseSync_init PyNone PyNone ?s] =>
        rewrite (init_set s token database Htoken Hne Hdatabase Hne')
    end.
    unfold bind at 1. cbn [getenv environ with_log]. rewrite Htype.
    cbn [from_option]. unfold bind at 1. cbn [logger]. unfold bind at 1.
    rewrite get_connector_run. cbn [environ with_log]. rewrite Htype.
    cbn [from_option]. rewrite py_or_same. cbv zeta.
    rewrite (connectors_get_unknown name Hout). reflexivity. }
  rewrite (main_fatal (ValueError _) _ _ eq_refl Hbody). split; reflexivity.
Qed.

Lemma main_unknown_backend_witness :
  exit_status
    (main (H := offline)
       (boot {[ "NOTION_TOKEN" := "secret"; "NOTION_DATABASE_ID" := "db";
                "DB_TYPE" := "oracle" ]} ∅ tt)).1 = 1%Z.
Proof.
  apply (main_unknown_backend (H := offline)
           (boot {[ "NOTION_TOKEN" := "secret"; "NOTION_DATABASE_ID" := "db";
                    "DB_TYPE" := "oracle" ]} ∅ tt)
           "secret" "db" "oracle");
    try (vm_compute; reflexivity); try discriminate.
  apply (bool_decide_unpack _). vm_compute. exact I.
Defined.

(** ** A start without its driver *)

Section MissingDriverRuns.
Context `{Outside W}.

Lemma fetch_records_missing connector (st : state W) :
  driver_unavailable connector st →
  match connector with
  | SQLiteConnector =>
      fetch_records connector st
      = (Raise (ImportError "No module named 'sqlite3'"), st)
  | _ => ∃ hint, fetch_records connector st = (Ok [], logged ERROR [Text hint] st)
  end.
Proof.
  intros Hmissing.
  destruct connector; cbn [fetch_records].
  - eexists. unfold PostgreSQLConnector_fetch_records. unfold bind at 1.
    rewrite (import_driver_missing _ _ _ Hmissing). reflexivity.
  - eexists. unfold MySQLConnector_fetch_records. unfold bind at 1.
    rewrite (import_driver_missing _ _ _ Hmissing). reflexivity.
  - eexists. unfold MongoDBConnector_fetch_records. unfold bind at 1.
    rewrite (import_driver_missing _ _ _ Hmissing). reflexivity.
  - destruct Hmissing as (name & Hin & Hout).
    apply list_elem_of_singleton in Hin as ->.
    unfold SQLiteConnector_fetch_records. unfold bind at 1. unfold import.
    destruct (decide ("sqlite3" ∈ modules st)); [contradiction|reflexivity].
Qed.
End MissingDriverRuns.

(** X18. With the client configured and a backend whose driver is not
    installed, [main] for PostgreSQL, MySQL and MongoDB takes the missing
    driver for an empty table: it exits with status 0.  For SQLite it
    exits with status 1.  Either way it has sent no request, left the
    database alone and printed nothing. *)
Theorem main_missing_driver `{Outside W} (st : state W) token database connector :
  environ st !! "NOTION_TOKEN" = Some token → token ≠ "" →
  environ st !! "NOTION_DATABASE_ID" = Some database → database ≠ "" →
  connectors_get (backend st) = Some connector →
  driver_unavailable connector st →
  exit_status (main st).1
  = (match connector with SQLiteConnector => 1 | _ => 0 end)%Z ∧
  calls (main st).2 = calls st ∧
  world (main st).2 = world st ∧
  stdout (main st).2 = stdout st.
Proof.
  intros Htoken Hne Hdatabase Hne' Hconnector Hmissing.
  pose proof (startup_connected st token database connector
                Htoken Hne Hdatabase Hne' Hconnector) as Hstart.
  pose proof (fetch_records_missing connector (about_to_fetch st) Hmissing)
    as Hfetch.
  pose proof (main_body_halves st) as Hbody. unfold bind in Hbody.
  assert (Hsoft : (∃ hint, fetch_records connector (about_to_fetch st)
                           = (Ok [], logged ERROR [Text hint] (about_to_fetch st))) →
                  exit_status (main st).1 = 0%Z ∧ calls (main st).2 = calls st ∧
                  world (main st).2 = world st ∧ stdout (main st).2 = stdout st).
  { intros [hint Hrun]. rewrite Hrun in Hstart. rewrite Hstart in Hbody.
    cbn [fst snd] in Hbody. rewrite after_startup_empty in Hbody.
    rewrite (main_returns _ _ Hbody). repeat split. }
  destruct connector; try (apply Hsoft; exact Hfetch).
  rewrite Hfetch in Hstart. rewrite Hstart in Hbody.
  rewrite (main_fatal (ImportError _) _ _ eq_refl Hbody). repeat split.
Qed.

Lemma main_missing_driver_witness :
  exit_status
    (main (H := offline)
       (boot {[ "NOTION_TOKEN" := "secret"; "NOTION_DATABASE_ID" := "db" ]}
          ∅ tt)).1 = 0%Z.
Proof.
  refine (proj1 (main_missing_driver (H := offline)
                   (boot {[ "NOTION_TOKEN" := "secret";
                            "NOTION_DATABASE_ID" := "db" ]} ∅ tt)
                   "secret" "db" PostgreSQLConnector _ _ _ _ _ _));
    try (vm_compute; reflexivity); try discriminate.
  exists "psycopg2". split; [apply list_elem_of_here|apply not_elem_of_empty].
Defined.

(** ** Requests of a whole run *)

Section RunCounts.
Context `{Outside W}.

Lemma sends_print line : sends_at_most (W := W) 0 (print line).
Proof. by apply sends_nothing. Qed.

Lemma sends_after_startup client records :
  sends_at_most (2 * length records)%nat (after_startup client records).
Proof.
  unfold after_startup. destruct records as [|rec records].
  - apply sends_logger.
  - apply (sends_weaken (0 + (2 * length (rec :: records) + 0))%nat); [lia|].
    apply sends_bind; [apply sends_logger|intros _].
    apply sends_bind; [apply sends_sync_from_database|intros s].
    do 6 (apply (sends_bind 0 0); [apply sends_print|intros _]).
    apply (sends_bind 0 0).
    + destruct (error_details s); [apply sends_ret|].
      apply (sends_bind 0 0); [apply sends_print|intros _].
      apply (sends_weaken (0 * length (take 5 (e :: l)))%nat); [lia|].
      apply sends_for_each. intros d. apply sends_print.
    + intros _. destruct (0 <? errors s)%nat; [apply sends_raise|apply sends_ret].
Qed.

Lemma main_after_startup (st : state W) client records st1 :
  startup st = (Ok (client, records), st1) →
  ∃ new, calls (main st).2 = (calls st ++ new)%list ∧
         (length new ≤ 2 * length records)%nat.
Proof.
  intros Hstart.
  destruct (local_op_startup st) as (Hcalls & _ & _).
  rewrite Hstart in Hcalls. cbn [snd] in Hcalls.
  pose proof (main_body_halves st) as Hbody. unfold bind in Hbody.
  rewrite Hstart in Hbody. cbn [fst snd] in Hbody.
  destruct (sends_after_startup client records st1) as (new & Hnew & Hlen).
  exists new. split; [|exact Hlen].
  rewrite <- Hcalls, <- Hnew.
  unfold main, try_except. rewrite Hbody.
  destruct (after_startup client records st1) as [[[]|e] st2]; [reflexivity|].
  destruct (is_Exception e); reflexivity.
Qed.
End RunCounts.

(** X19. A run of [main] that fetched its rows sends at most two
    requests for each of them, and none when it fetched none. *)
Theorem main_sends_at_most_two_per_row `{Outside W} (st : state W)
    client records st1 :
  startup st = (Ok (client, records), st1) →
  ∃ new, calls (main st).2 = (calls st ++ new)%list ∧
         (length new ≤ 2 * length records)%nat.
Proof. apply main_after_startup. Qed.

Lemma main_sends_at_most_two_per_row_witness :
  let st := configured ["u1"]
              [ {[ "uid" := PyStr "u1"; "status" := PyStr "Active" ]};
                {[ "uid" := PyStr "u2"; "name" := PyStr "Ada" ]};
                {[ "name" := PyStr "Bob" ]} ] in
  (∃ new,
     calls (main (H := directory) st).2 = (calls st ++ new)%list ∧
     (length new ≤ 2 * 3)%nat) ∧
  length (calls (main (H := directory) st).2) = 4.
Proof.
  pose (row1 := ({[ "uid" := PyStr "u1"; "status" := PyStr "Active" ]} : Record)).
  pose (row2 := ({[ "uid" := PyStr "u2"; "name" := PyStr "Ada" ]} : Record)).
  pose (row3 := ({[ "name" := PyStr "Bob" ]} : Record)).
  pose (st := configured ["u1"] [row1; row2; row3]).
  split.
  - exact (main_sends_at_most_two_per_row (H := directory) st
             sample_client [row1; row2; row3]
             (startup (H := directory) st).2
             ltac:(vm_compute; reflexivity)).
  - vm_compute. reflexivity.
Defined.

(** ** What a computation leaves alone *)

Section Frames.
Context `{Outside W} {X : Type}.
Variable f : state W → X.
Hypothesis f_log : ∀ l st, f (with_log l st) = f st.
Hypothesis f_world : ∀ w st, f (with_world w st) = f st.
Hypothesis f_calls : ∀ c st, f (with_calls c st) = f st.
Hypothesis f_summary : ∀ s st, f (with_summary s st) = f st.

Lemma keeps_ret {A} (a : A) : keeps f (ret a).
Proof. by intros st. Qed.

Lemma keeps_raise {A} e : keeps f (raise (A := A) e).
Proof. by intros st. Qed.

Lemma keeps_bind {A B} (c : M W A) (k : A → M W B) :
  keeps f c → (∀ a, keeps f (k a)) → keeps f (bind c k).
Proof.
  intros Hc Hk st. unfold bind. specialize (Hc st).
  destruct (c st) as [[a|e] st1]; cbn [snd] in *; [|assumption].
  rewrite (Hk a st1). assumption.
Qed.

Lemma keeps_try_except {A} (body : M W A) cls handler :
  keeps f body → (∀ e, keeps f (handler e)) →
  keeps f (try_except body cls handler).
Proof.
  intros Hb Hh st. unfold try_except. specialize (Hb st).
  destruct (body st) as [[a|e] st1]; cbn [snd] in *; [assumption|].
  destruct (cls e); [|assumption]. rewrite (Hh e st1). assumption.
Qed.

Lemma keeps_logger lvl msg : keeps f (logger lvl msg).
Proof. intros st. apply f_log. Qed.

Lemma keeps_getenv key dflt : keeps f (getenv key dflt).
Proof. by intros st. Qed.

Lemma keeps_import name : keeps f (import name).
Proof. intros st. unfold import. by destruct (decide _). Qed.

Lemma keeps_run_driver req : keeps f (run_driver req).
Proof.
  intros st. unfold run_driver.
  destruct (execute req (world st)) as [[msg|rows] w]; apply f_world.
Qed.

Lemma keeps_requests_send req : keeps f (requests_send req).
Proof.
  intros st. unfold requests_send.
  destruct (unserializable (payload_of req)); [reflexivity|].
  destruct (send req (world st)) as [[msg|resp] w]; cbn [snd];
    by rewrite f_calls, f_world.
Qed.

Lemma keeps_raise_for_status r : keeps f (raise_for_status r).
Proof. intros st. unfold raise_for_status. by destruct (http_error r). Qed.

Lemma keeps_response_json r : keeps f (response_json r).
Proof. intros st. unfold response_json. by destruct (decoded r). Qed.

Lemma keeps_get_summary : keeps f get_summary.
Proof. by intros st. Qed.

Lemma keeps_set_summary s : keeps f (set_summary s).
Proof. intros st. apply f_summary. Qed.

Lemma keeps_for_each {A} (xs : list A) (body : A → M W unit) :
  (∀ x, keeps f (body x)) → keeps f (for_each xs body).
Proof.
  intros Hbody. induction xs as [|x xs IH]; cbn [for_each].
  - apply keeps_ret.
  - apply keeps_bind; [apply Hbody|intros _; exact IH].
Qed.

Ltac keeps_steps :=
  repeat first
    [ apply keeps_ret | apply keeps_raise | apply keeps_logger
    | apply keeps_getenv | apply keeps_import | apply keeps_run_driver
    | apply keeps_requests_send | apply keeps_raise_for_status
    | apply keeps_response_json | apply keeps_get_summary
    | apply keeps_set_summary
    | apply keeps_for_each; intros ?
    | apply keeps_try_except; [|intros ?]
    | apply keeps_bind; [|intros ?]
    | match goal with
      | |- keeps _ (if ?b then _ else _) => destruct b
      | |- keeps _ (match ?x with _ => _ end) => destruct x
      end ].

Lemma keeps_check_if_exists self uid : keeps f (check_if_exists self uid).
Proof. unfold check_if_exists, requests_post. keeps_steps. Qed.

Lemma keeps_update_page self page_id data : keeps f (update_page self page_id data).
Proof. unfold update_page, requests_patch. keeps_steps. Qed.

Lemma keeps_create_page self data : keeps f (create_page self data).
Proof. unfold create_page, requests_post. keeps_steps. Qed.

Lemma keeps_sync_record self rec : keeps f (sync_record self rec).
Proof.
  unfold sync_record, incr_errors, incr_created, incr_updated,
    append_error_detail.
  apply keeps_try_except; [|intros e; keeps_steps].
  destruct (negb (truthy (get rec "uid"))); [keeps_steps|].
  apply keeps_bind; [apply keeps_check_if_exists|intros page_id].
  destruct (truthy page_id).
  - apply keeps_bind; [apply keeps_logger|intros _].
    apply keeps_bind; [apply keeps_update_page|intros _]. keeps_steps.
  - apply keeps_bind; [apply keeps_logger|intros _].
    apply keeps_bind; [apply keeps_create_page|intros _]. keeps_steps.
Qed.

Lemma keeps_sync_from_database self records :
  keeps f (sync_from_database self records).
Proof.
  unfold sync_from_database.
  apply keeps_bind; [apply keeps_set_summary|intros _].
  apply keeps_bind; [apply keeps_for_each, keeps_sync_record|intros _].
  keeps_steps.
Qed.

Lemma keeps_fetch_records connector : keeps f (fetch_records connector).
Proof.
  destruct connector; cbn [fetch_records];
    unfold PostgreSQLConnector_fetch_records, MySQLConnector_fetch_records,
      MongoDBConnector_fetch_records, SQLiteConnector_fetch_records,
      import_driver, connection_params;
    keeps_steps.
Qed.

Lemma keeps_startup : keeps f startup.
Proof.
  unfold startup.
  apply keeps_bind; [apply keeps_logger|intros _].
  apply keeps_bind; [unfold NotionDatabaseSync_init; keeps_steps|intros client].
  apply keeps_bind; [apply keeps_getenv|intros db_type].
  apply keeps_bind; [apply keeps_logger|intros _].
  apply keeps_bind; [unfold get_connector; keeps_steps|intros connector].
  apply keeps_bind; [apply keeps_logger|intros _].
  apply keeps_bind; [apply keeps_fetch_records|intros records].
  keeps_steps.
Qed.
End Frames.

(** ** The report of [main] *)

Section Report.
Context `{Outside W}.

Lemma printed_bind {A} out out' (r : result A) (c : M W unit) (k : M W A) :
  (∀ st, c st = (Ok tt, with_stdout (stdout st ++ out) st)) →
  (∀ st, k st = (r, with_stdout (stdout st ++ out') st)) →
  ∀ st, (c ;; k) st = (r, with_stdout (stdout st ++ (out ++ out')) st).
Proof.
  intros Hc Hk st. unfold bind. rewrite Hc, Hk. cbn [stdout with_stdout].
  rewrite app_assoc. reflexivity.
Qed.

Lemma printed_nothing {A} (r : result A) (c : M W A) :
  (∀ st, c st = (r, st)) →
  ∀ st, c st = (r, with_stdout (stdout st ++ []) st).
Proof. intros Hc st. rewrite Hc, app_nil_r. by destruct st. Qed.

Lemma printed_details (ds : list ErrorDetail) (st : state W) :
  for_each ds print_error_detail st
  = (Ok tt, with_stdout (stdout st ++ map detail_line ds) st).
Proof.
  revert st. induction ds as [|d ds IH]; cbn [for_each map].
  - by apply printed_nothing.
  - apply (printed_bind [detail_line d]); [reflexivity|exact IH].
Qed.

(** The prints of [main] are those of [report], in its order. *)
Lemma printed_report (s : Summary) (st : state W) :
  (print (newline +:+ repeat_str "=" 50) ;;
   print "SYNC COMPLETE" ;;
   print (repeat_str "=" 50) ;;
   print ("✅ Created: " +:+ pretty (created s) +:+ " new records") ;;
   print ("📝 Updated: " +:+ pretty (updated s) +:+ " existing records") ;;
   print ("❌ Errors: " +:+ pretty (errors s) +:+ " failed records") ;;
   match error_details s with
   | [] => ret tt
   | _ :: _ =>
       print (newline +:+ "Error Details:") ;;
       for_each (take 5 (error_details s)) print_error_detail
   end ;;
   if (0 <? errors s)%nat then sys_exit 1 else ret tt) st
  = (if (0 <? errors s)%nat then Raise (SystemExit 1) else Ok tt,
     with_stdout (stdout st ++ report s) st).
Proof.
  revert st. unfold report.
  do 6 (apply (printed_bind [_]); [reflexivity|]).
  rewrite <- (app_nil_r (match error_details s with [] => [] | _ :: _ => _ end)).
  apply printed_bind.
  - destruct (error_details s) as [|d ds].
    + by apply printed_nothing.
    + apply (printed_bind [_]); [reflexivity|]. apply printed_details.
  - apply printed_nothing. intros st. by destruct (0 <? errors s)%nat.
Qed.

Lemma stdout_with_log l (st : state W) : stdout (with_log l st) = stdout st.
Proof. reflexivity. Qed.
Lemma stdout_with_world w (st : state W) : stdout (with_world w st) = stdout st.
Proof. reflexivity. Qed.
Lemma stdout_with_calls c (st : state W) : stdout (with_calls c st) = stdout st.
Proof. reflexivity. Qed.
Lemma stdout_with_summary s (st : state W) : stdout (with_summary s st) = stdout st.
Proof. reflexivity. Qed.

Lemma main_report (st : state W) client (rec : Record) records st1 :
  startup st = (Ok (client, rec :: records), st1) →
  stdout (main st).2 = (stdout st ++ report (summary (main st).2))%list ∧
  length (error_details (summary (main st).2)) = errors (summary (main st).2) ∧
  created (summary (main st).2) + updated (summary (main st).2)
  + errors (summary (main st).2) = length (rec :: records).
Proof.
  intros Hstart.
  pose proof (keeps_startup stdout stdout_with_log stdout_with_world st)
    as Hquiet.
  rewrite Hstart in Hquiet. cbn [snd] in Hquiet.
  pose proof (main_body_halves st) as Hbody. unfold bind in Hbody.
  rewrite Hstart in Hbody. cbn [fst snd] in Hbody.
  set (st1' := (logger INFO [Text "Syncing to Notion..."] st1).2).
  destruct (sync_from_database_total client (rec :: records) st1')
    as (st2 & Hsync & Hsum & Hlen).
  pose proof (keeps_sync_from_database stdout stdout_with_log stdout_with_world
                stdout_with_calls stdout_with_summary client (rec :: records) st1')
    as Hquiet'.
  rewrite Hsync in Hquiet'. cbn [snd] in Hquiet'.
  assert (Hafter : after_startup client (rec :: records) st1
                   = (if (0 <? errors (summary st2))%nat
                      then Raise (SystemExit 1) else Ok tt,
                      with_stdout (stdout st2 ++ report (summary st2)) st2)).
  { unfold after_startup. unfold bind at 1. cbn [logger].
    unfold bind at 1.
    match goal with
    | |- context [sync_from_database client (rec :: records) ?s] =>
        change s with st1'
    end.
    rewrite Hsync. apply printed_report. }
  rewrite Hafter in Hbody.
  assert (Hmain : main st
                  = (if (0 <? errors (summary st2))%nat
                     then Raise (SystemExit 1) else Ok tt,
                     with_stdout (stdout st2 ++ report (summary st2)) st2)).
  { unfold main, try_except. rewrite Hbody.
    by destruct (0 <? errors (summary st2))%nat. }
  rewrite Hmain. cbn [snd stdout summary with_stdout].
  split; [|split; assumption].
  rewrite Hquiet'. subst st1'. cbn. by rewrite Hquiet.
Qed.

Lemma main_silent (st : state W) :
  (∃ client st1, startup st = (Ok (client, []), st1)) ∨
  (∃ e st1, startup st = (Raise e, st1)) →
  stdout (main st).2 = stdout st.
Proof.
  intros Hstart.
  pose proof (keeps_startup stdout stdout_with_log stdout_with_world st)
    as Hquiet.
  pose proof (main_body_halves st) as Hbody. unfold bind in Hbody.
  destruct (local_op_startup st) as (_ & _ & Hexc).
  destruct Hstart as [(client & st1 & Hstart) | (e & st1 & Hstart)];
    rewrite Hstart in Hquiet, Hbody, Hexc; cbn [fst snd] in *.
  - rewrite after_startup_empty in Hbody.
    rewrite (main_returns _ _ Hbody). exact Hquiet.
  - rewrite (main_fatal e _ _ Hexc Hbody). exact Hquiet.
Qed.
End Report.

(** X20. After a sync of at least one row, what [main] has printed is,
    call of [print] by call of [print] and with nothing before or in
    between: a line break and fifty ["="]; ["SYNC COMPLETE"]; fifty
    ["="]; the counts of created, updated and failed rows of the summary,
    which add up to the number of rows; and, when a failure was
    recorded (there is one for each row counted as failed), a line break
    and ["Error Details:"], then the uid and the message of each of the
    first five failures, in the order of the rows, and of no other. *)
Theorem main_prints_report `{Outside W} (st : state W) client
    (rec : Record) records st1 :
  startup st = (Ok (client, rec :: records), st1) →
  let s := summary (main st).2 in
  stdout (main st).2
  = (stdout st
     ++ [ newline +:+ repeat_str "=" 50;
          "SYNC COMPLETE";
          repeat_str "=" 50;
          "✅ Created: " +:+ pretty (created s) +:+ " new records";
          "📝 Updated: " +:+ pretty (updated s) +:+ " existing records";
          "❌ Errors: " +:+ pretty (errors s) +:+ " failed records" ]
     ++ match error_details s with
        | [] => []
        | _ :: _ =>
            (newline +:+ "Error Details:")
            :: map detail_line (take 5 (error_details s))
        end)%list ∧
  length (error_details s) = errors s ∧
  created s + updated s + errors s = length (rec :: records).
Proof. intros Hstart s. exact (main_report st client rec records st1 Hstart). Qed.

(** X21. A run that fetched no rows, or that failed before it had any,
    prints nothing. *)
Theorem main_prints_nothing_without_rows `{Outside W} (st : state W) :
  (∃ client st1, startup st = (Ok (client, []), st1)) ∨
  (∃ e st1, startup st = (Raise e, st1)) →
  stdout (main st).2 = stdout st.
Proof. apply main_silent. Qed.

Lemma main_prints_report_witness :
  stdout (main (H := directory)
            (configured ["u1"]
               [ {[ "uid" := PyStr "u1" ]};
                 {[ "name" := PyStr "Bob" ]};
                 {[ "uid" := PyNone ]};
                 {[ "uid" := PyStr "" ]};
                 {[ "uid" := PyInt 0 ]};
                 {[ "uid" := PyBool false ]};
                 {[ "uid" := PyStr ""; "name" := PyStr "Eve" ]} ])).2
  = [ newline +:+ repeat_str "=" 50;
      "SYNC COMPLETE";
      repeat_str "=" 50;
      "✅ Created: 0 new records";
      "📝 Updated: 1 existing records";
      "❌ Errors: 6 failed records";
      newline +:+ "Error Details:";
      "  - UID unknown: Missing UID";
      "  - UID None: Missing UID";
      "  - UID : Missing UID";
      "  - UID 0: Missing UID";
      "  - UID False: Missing UID" ].
Proof.
  pose (row1 := ({[ "uid" := PyStr "u1" ]} : Record)).
  pose (row2 := ({[ "name" := PyStr "Bob" ]} : Record)).
  pose (row3 := ({[ "uid" := PyNone ]} : Record)).
  pose (row4 := ({[ "uid" := PyStr "" ]} : Record)).
  pose (row5 := ({[ "uid" := PyInt 0 ]} : Record)).
  pose (row6 := ({[ "uid" := PyBool false ]} : Record)).
  pose (row7 := ({[ "uid" := PyStr ""; "name" := PyStr "Eve" ]} : Record)).
  pose (st := configured ["u1"] [row1; row2; row3; row4; row5; row6; row7]).
  destruct (main_prints_report (H := directory) st sample_client row1
              [row2; row3; row4; row5; row6; row7]
              (startup (H := directory) st).2
              ltac:(vm_compute; reflexivity))
    as (Hout & _).
  change (stdout (main (H := directory) st).2 = [ newline +:+ repeat_str "=" 50;
      "SYNC COMPLETE";
      repeat_str "=" 50;
      "✅ Created: 0 new records";
      "📝 Updated: 1 existing records";
      "❌ Errors: 6 failed records";
      newline +:+ "Error Details:";
      "  - UID unknown: Missing UID";
      "  - UID None: Missing UID";
      "  - UID : Missing UID";
      "  - UID 0: Missing UID";
      "  - UID False: Missing UID" ]).
  rewrite Hout. vm_compute. reflexivity.
Defined.

Lemma main_prints_nothing_without_rows_witness :
  stdout (main (H := directory) (configured [] [])).2 = [].
Proof.
  apply (main_prints_nothing_without_rows (H := directory) (configured [] [])).
  left. exists sample_client, (startup (H := directory) (configured [] [])).2.
  vm_compute. reflexivity.
Defined.

(** ** What the sync and the connectors leave alone *)

(** X22. Whatever the rows and the remote, [sync_from_database] prints
    nothing and leaves the environment and the installed modules as they
    are: all it changes is the remote, the log and its summary. *)
Theorem sync_from_database_confined `{Outside W} self (records : list Record) :
  keeps stdout (sync_from_database self records) ∧
  keeps environ (sync_from_database self records) ∧
  keeps modules (sync_from_database self records).
Proof. repeat split; by apply keeps_sync_from_database. Qed.

(** X23. Whatever the backend and its answer, [fetch_records] sends no
    request to the remote API, prints nothing and leaves the summary
    alone, and whatever it raises derives from [Exception]. *)
Theorem fetch_records_confined `{Outside W} connector (st : state W) :
  calls (fetch_records connector st).2 = calls st ∧
  stdout (fetch_records connector st).2 = stdout st ∧
  summary (fetch_records connector st).2 = summary st ∧
  ∀ e, (fetch_records connector st).1 = Raise e → is_Exception e = true.
Proof.
  destruct (local_op_fetch_records connector st) as (Hcalls & Hsummary & Hexc).
  repeat split; [assumption| |assumption|].
  - by apply keeps_fetch_records.
  - intros e He. by rewrite He in Hexc.
Qed.

Lemma fetch_records_confined_witness :
  is_Exception (ImportError "No module named 'sqlite3'") = true.
Proof.
  apply (proj2 (proj2 (proj2 (fetch_records_confined (H := offline)
                                SQLiteConnector without_sqlite3)))).
  vm_compute. reflexivity.
Defined.

(** ** The constructor and the exit status *)

(** X24. [__init__] takes each of its two values from its argument when
    that is given, and from the environment ([NOTION_TOKEN],
    [NOTION_DATABASE_ID]) when the argument is absent or empty, so a
    given argument wins over the environment.  When both values are
    there it returns the client built from them, with the bearer token
    in its headers; when one is missing or empty in both places it
    raises the configuration error.  In either case the state is left
    as it is.  An argument that is empty counts as one that is absent. *)
Theorem init_arguments_first {W} (token database : value) (st : state W) :
  (let t := if truthy token then token
            else setting (environ st) "NOTION_TOKEN" PyNone in
   let d := if truthy database then database
            else setting (environ st) "NOTION_DATABASE_ID" PyNone in
   NotionDatabaseSync_init token database st
   = (if truthy t && truthy d
      then Ok {| notion_token := t;
                 database_id := d;
                 headers := [ ("Authorization", "Bearer " +:+ str t);
                              ("Content-Type", "application/json");
                              ("Notion-Version", "2022-06-28") ];
                 base_url := "https://api.notion.com/v1" |}
      else Raise (ValueError
                    ("NOTION_TOKEN and NOTION_DATABASE_ID must be provided " +:+
                     "either as arguments or environment variables")),
      st)) ∧
  (truthy token = false →
   NotionDatabaseSync_init token database st
   = NotionDatabaseSync_init PyNone database st) ∧
  (truthy database = false →
   NotionDatabaseSync_init token database st
   = NotionDatabaseSync_init token PyNone st).
Proof.
  unfold NotionDatabaseSync_init, bind, getenv, py_or, setting.
  split; [|split].
  - cbv zeta.
    destruct (truthy (if truthy token then _ else _));
      destruct (truthy (if truthy database then _ else _)); reflexivity.
  - intros Htoken. cbv zeta. rewrite Htoken. reflexivity.
  - intros Hdatabase. cbv zeta. rewrite Hdatabase. reflexivity.
Qed.

Lemma init_arguments_first_witness :
  NotionDatabaseSync_init (PyStr "secret") (PyStr "db")
    (boot {[ "NOTION_TOKEN" := "other" ]} ∅ tt)
  = (Ok sample_client, boot {[ "NOTION_TOKEN" := "other" ]} ∅ tt) ∧
  NotionDatabaseSync_init PyNone (PyStr "db")
    (boot {[ "NOTION_TOKEN" := "secret"; "NOTION_DATABASE_ID" := "other" ]} ∅ tt)
  = (Ok sample_client,
     boot {[ "NOTION_TOKEN" := "secret"; "NOTION_DATABASE_ID" := "other" ]} ∅ tt) ∧
  NotionDatabaseSync_init (PyStr "") PyNone
    (boot {[ "NOTION_TOKEN" := "secret" ]} ∅ tt)
  = (Raise (ValueError
              ("NOTION_TOKEN and NOTION_DATABASE_ID must be provided " +:+
               "either as arguments or environment variables")),
     boot {[ "NOTION_TOKEN" := "secret" ]} ∅ tt) ∧
  NotionDatabaseSync_init (PyStr "") (PyStr "db")
    (boot {[ "NOTION_TOKEN" := "secret" ]} ∅ tt)
  = NotionDatabaseSync_init PyNone (PyStr "db")
      (boot {[ "NOTION_TOKEN" := "secret" ]} ∅ tt).
Proof.
  split; [|split; [|split]].
  - exact (proj1 (init_arguments_first (PyStr "secret") (PyStr "db")
                    (boot {[ "NOTION_TOKEN" := "other" ]} ∅ tt))).
  - exact (proj1 (init_arguments_first PyNone (PyStr "db")
                    (boot {[ "NOTION_TOKEN" := "secret";
                             "NOTION_DATABASE_ID" := "other" ]} ∅ tt))).
  - exact (proj1 (init_arguments_first (PyStr "") PyNone
                    (boot {[ "NOTION_TOKEN" := "secret" ]} ∅ tt))).
  - exact (proj1 (proj2 (init_arguments_first (PyStr "") (PyStr "db")
                           (boot {[ "NOTION_TOKEN" := "secret" ]} ∅ tt)))
             eq_refl).
Defined.

Section ExitCodes.
Context `{Outside W}.

Lemma main_exit_codes (st : state W) :
  exit_status (main st).1 = 0%Z ∨ exit_status (main st).1 = 1%Z.
Proof.
  pose proof (main_body_halves st) as Hbody. unfold bind in Hbody.
  destruct (local_op_startup st) as (_ & _ & Hexc).
  destruct (startup st) as [[[client records]|e] st1]; cbn [fst snd] in *.
  - destruct records as [|rec records].
    + rewrite after_startup_empty in Hbody.
      rewrite (main_returns _ _ Hbody). by left.
    + destruct (after_startup_rows client rec records st1)
        as (st2 & out & _ & Hrest).
      rewrite Hrest in Hbody.
      destruct (0 <? errors (summary st2))%nat.
      * rewrite (main_exits _ _ _ Hbody). by right.
      * rewrite (main_returns _ _ Hbody). by left.
  - rewrite (main_fatal e _ _ Hexc Hbody). by right.
Qed.
End ExitCodes.

(** X25. Whatever the environment, the database and the remote, the
    process ends with status 0 or with status 1. *)
Theorem main_exits_zero_or_one `{Outside W} (st : state W) :
  exit_status (main st).1 = 0%Z ∨ exit_status (main st).1 = 1%Z.
Proof. apply main_exit_codes. Qed.
